(** * ai-study-guide: the chunker, the generation pipeline, the flashcard
    parser and the flashcard viewer of [app.py], embedded and verified.

    Python strings are modelled as [string]; a character is a code point
    below 256.  Python integers are [Z]; [len] results are [nat] injected
    into [Z] where the source compares them with an integer argument. *)

From Stdlib Require Import List String Ascii ZArith NArith QArith Bool Lia.
Import ListNotations.

Local Open Scope list_scope.
Local Open Scope string_scope.

(* ================================================================== *)
(** * Python string primitives used by [app.py] *)
(* ================================================================== *)

Module PyStr.

(** The line feed character and the one-character string ["\n"]. *)
Definition nl : ascii := "010"%char.
Definition newline : string := String nl "".

(** Truthiness of a [str]: [if s:] holds exactly for non-empty strings. *)
Definition truthy (s : string) : bool :=
  match s with
  | "" => false
  | String _ _ => true
  end.

(** [text.split(sep)] for a one-character separator: never returns the
    empty list, and yields one more field than there are separators. *)
Fixpoint split (sep : ascii) (s : string) : list string :=
  match s with
  | "" => [""]
  | String c rest =>
      if Ascii.eqb c sep then "" :: split sep rest
      else match split sep rest with
           | [] => [String c ""]
           | field :: fields => String c field :: fields
           end
  end.

(** ["".join(parts)]. *)
Fixpoint join_all (parts : list string) : string :=
  match parts with
  | [] => ""
  | p :: ps => p ++ join_all ps
  end.

(** [str.isspace] on one code point below 256: TAB..CR, FS..US, space,
    NEL (0x85) and NBSP (0xA0). *)
Definition isspace (c : ascii) : bool :=
  let n := N_of_ascii c in
  ((9 <=? n) && (n <=? 13) || (28 <=? n) && (n <=? 32)
   || (n =? 133) || (n =? 160))%N.

Fixpoint lstrip (s : string) : string :=
  match s with
  | "" => ""
  | String c rest => if isspace c then lstrip rest else s
  end.

Fixpoint rstrip (s : string) : string :=
  match s with
  | "" => ""
  | String c rest =>
      match rstrip rest with
      | "" => if isspace c then "" else String c ""
      | kept => String c kept
      end
  end.

(** [s.strip()] with no argument. *)
Definition strip (s : string) : string := rstrip (lstrip s).

(** [str.lower] on one code point below 256: A..Z and the Latin-1
    capitals (all of 0xC0..0xDE but the multiplication sign 0xD7). *)
Definition lower_char (c : ascii) : ascii :=
  let n := N_of_ascii c in
  if ((65 <=? n) && (n <=? 90)
      || (192 <=? n) && (n <=? 222) && negb (n =? 215))%N
  then ascii_of_N (n + 32)
  else c.

Fixpoint lower (s : string) : string :=
  match s with
  | "" => ""
  | String c rest => String (lower_char c) (lower rest)
  end.

(** [s.startswith(p)]. *)
Definition startswith (s p : string) : bool := String.prefix p s.

(** The slice [s[n:]] for a non-negative [n]. *)
Fixpoint slice_from (n : nat) (s : string) : string :=
  match n, s with
  | O, _ => s
  | S _, "" => ""
  | S m, String _ rest => slice_from m rest
  end.

(** [c * n] for a one-character string. *)
Fixpoint repeat_char (c : ascii) (n : nat) : string :=
  match n with
  | O => ""
  | S m => String c (repeat_char c m)
  end.

(** The character [c] occurs in [s]. *)
Fixpoint contains (c : ascii) (s : string) : bool :=
  match s with
  | "" => false
  | String d rest => Ascii.eqb d c || contains c rest
  end.

End PyStr.

(* ================================================================== *)
(** * The chunker (app.py, lines 43-55) *)
(* ================================================================== *)

Module Chunker.
Import PyStr.

(** State of the loop of [chunk_text]: the list [chunks] and the
    accumulator [current_chunk]. *)
Record acc := mkAcc { chunks : list string; current_chunk : string }.

(** One iteration of [for paragraph in paragraphs]. *)
Definition chunk_step (chunk_size : Z) (a : acc) (paragraph : string) : acc :=
  if (Z.of_nat (length (current_chunk a))
      + Z.of_nat (length paragraph) + 1 <? chunk_size)%Z
  then mkAcc (chunks a) (current_chunk a ++ (paragraph ++ newline))
  else mkAcc (chunks a ++ [current_chunk a])%list (paragraph ++ newline).

Definition chunk_text (text : string) (chunk_size : Z) : list string :=
  let paragraphs := split nl text in
  let a := fold_left (chunk_step chunk_size) paragraphs (mkAcc [] "") in
  if truthy (current_chunk a)
  then (chunks a ++ [current_chunk a])%list
  else chunks a.

(** The default of the keyword argument [chunk_size=3000]. *)
Definition default_chunk_size : Z := 3000.

(** Lines 316-320 of the button handler: the chunk sequence handed to the
    three generation passes, or [None] when the extracted text is blank
    and the handler reports an error instead. *)
Definition handler_text_chunks (raw_text : string) : option (list string) :=
  if negb (truthy (strip raw_text)) then None
  else Some (chunk_text raw_text default_chunk_size).

(** A chunk written out from the paragraphs it packs: each paragraph
    followed by its newline. *)
Definition render (group : list string) : string :=
  join_all (map (fun p => p ++ newline) group).

(** What the loop guarantees of a group of paragraphs packed into one
    chunk: it is empty, or its chunk is shorter than the bound, or it is
    one paragraph that with its newline reaches the bound. *)
Definition bounded (chunk_size : Z) (group : list string) : Prop :=
  group = []
  \/ (Z.of_nat (length (render group)) < chunk_size)%Z
  \/ exists p, group = [p] /\ (chunk_size <= Z.of_nat (length p) + 1)%Z.

(** The size bound on one chunk of [chunk_text text chunk_size], the way
    the specification words it: shorter than the bound, or one paragraph
    longer than the bound. *)
Definition within_bound_as_stated (text : string) (chunk_size : Z)
    (chunk : string) : Prop :=
  (Z.of_nat (length chunk) < chunk_size)%Z
  \/ exists p, In p (split nl text) /\ chunk = p ++ newline
               /\ (chunk_size < Z.of_nat (length p))%Z.

(** The size bound the loop enforces: the test of line 48 counts the
    newline, so a lone paragraph is over the bound from [chunk_size - 1]
    characters on; the empty chunk is the initial accumulator. *)
Definition within_bound (text : string) (chunk_size : Z)
    (chunk : string) : Prop :=
  chunk = ""
  \/ (Z.of_nat (length chunk) < chunk_size)%Z
  \/ exists p, In p (split nl text) /\ chunk = p ++ newline
               /\ (chunk_size <= Z.of_nat (length p) + 1)%Z.

End Chunker.

(* ================================================================== *)
(** * The flashcard parser (app.py, lines 59-82) *)
(* ================================================================== *)

Module Parser.
Import PyStr.

(** One element of the returned list: a dict with the keys [term] and
    [definition]. *)
Record flashcard := mkCard { term : string; definition : string }.

(** State of the loop: the list [flashcards] and the two pending
    variables, each [None] or a [str]. *)
Record pstate := mkP {
  flashcards : list flashcard;
  pending_term : option string;
  pending_definition : option string
}.

(** Truthiness of a variable that holds [None] or a [str]. *)
Definition truthy_opt (v : option string) : bool :=
  match v with
  | None => false
  | Some s => truthy s
  end.

(** [if term and definition: flashcards.append(...)]. *)
Definition save_card (flashcards : list flashcard)
    (term definition : option string) : list flashcard :=
  match term, definition with
  | Some t, Some d =>
      if truthy t && truthy d then (flashcards ++ [mkCard t d])%list
      else flashcards
  | _, _ => flashcards
  end.

(** One iteration of [for line in text_lines]. *)
Definition parse_step (st : pstate) (raw_line : string) : pstate :=
  let line := strip raw_line in
  if startswith (lower line) "term:" then
    mkP (save_card (flashcards st) (pending_term st) (pending_definition st))
        (Some (strip (slice_from 5 line)))
        None
  else if startswith (lower line) "definition:" then
    if truthy_opt (pending_term st)
    then mkP (flashcards st) (pending_term st)
             (Some (strip (slice_from 11 line)))
    else st
  else st.

(** The loop and the final [if term and definition] of the function, on
    the list [text_lines]. *)
Definition parse_lines (text_lines : list string) : list flashcard :=
  let st := fold_left parse_step text_lines (mkP [] None None) in
  save_card (flashcards st) (pending_term st) (pending_definition st).

Section WithMarkupStripper.

(** [get_text] maps a markup document to its text: the composition
    [BeautifulSoup(doc, 'html.parser').get_text()] of the bs4 library,
    which is not part of this repository. *)
Variable get_text : string -> string.

Definition text_lines_of (raw_text : string) : list string :=
  split nl (strip (get_text ("<div>" ++ raw_text ++ "</div>"))).

Definition parse_flashcards (raw_text : string) : list flashcard :=
  parse_lines (text_lines_of raw_text).

End WithMarkupStripper.

(** The markup pass on a document [<div>raw</div>] whose [raw] holds no
    markup: the text is [raw] itself. *)
Definition markup_free (get_text : string -> string) (raw_text : string) : Prop :=
  get_text ("<div>" ++ raw_text ++ "</div>") = raw_text.

(** A stripper that removes exactly the enclosing [<div>] and [</div>];
    it agrees with the markup pass on every text without markup. *)
Definition unwrap_div (doc : string) : string :=
  substring 5 (length doc - 11) doc.

(** The raw text of the round-trip property: for each pair the two lines
    [Term: X] and [Definition: Y], the lines joined by line feeds. *)
Definition card_lines (pairs : list (string * string)) : list string :=
  flat_map (fun xy => ["Term: " ++ fst xy; "Definition: " ++ snd xy]) pairs.

Definition flashcard_text (pairs : list (string * string)) : string :=
  String.concat newline (card_lines pairs).

(** A value that survives the parser unchanged: not empty, on one line,
    and with no white space at either end. *)
Definition clean (s : string) : Prop :=
  s <> "" /\ contains nl s = false /\ strip s = s.

(** Line classes of the parser, decided on the stripped line. *)
Definition is_term_line (raw_line : string) : bool :=
  startswith (lower (strip raw_line)) "term:".

Definition is_definition_line (raw_line : string) : bool :=
  negb (is_term_line raw_line)
  && startswith (lower (strip raw_line)) "definition:".

(** What the final test of the function would save from a state. *)
Definition flush (st : pstate) : list flashcard :=
  save_card (flashcards st) (pending_term st) (pending_definition st).

(** A record as the data model wants it: both fields non-empty. *)
Definition complete (c : flashcard) : Prop :=
  term c <> "" /\ definition c <> "".

(** The record a pair [(X, Y)] stands for. *)
Definition card_of (xy : string * string) : flashcard :=
  mkCard (fst xy) (snd xy).

Definition clean_pair (xy : string * string) : Prop :=
  clean (fst xy) /\ clean (snd xy).

(** A raw text with a definition before any term, one complete card and
    a trailing term without definition. *)
Definition sample_raw : string :=
  "Definition: orphan" ++ newline ++ "Term: Cell" ++ newline
  ++ "Definition: The unit of life" ++ newline ++ "Term: lonely".

End Parser.

(* ================================================================== *)
(** * The generation pipeline (app.py, lines 87-119) *)
(* ================================================================== *)

Module Pipeline.
Import PyStr.

Inductive generation_type := summary | qa | flashcards.
Inductive difficulty := Beginner | Intermediate | Advanced.

(** Three double quotes, as the templates have them around the text. *)
Definition dquote : ascii := "034"%char.
Definition triple_quote : string := String dquote (String dquote (String dquote "")).

(** The common tail of every template: a blank line, then the chunk
    between triple quotes. *)
Definition text_slot : string :=
  newline ++ newline ++ "Text: " ++ triple_quote ++ "{text}" ++ triple_quote.

Definition PROMPTS (g : generation_type) (d : difficulty) : string :=
  match g, d with
  | summary, Beginner =>
      "Explain the main points of this text in simple, easy-to-understand language..." ++ text_slot
  | summary, Intermediate =>
      "Provide a detailed summary covering the key arguments..." ++ text_slot
  | summary, Advanced =>
      "Create a critical summary for a graduate-level audience..." ++ text_slot
  | qa, Beginner =>
      "Generate basic factual questions and answers..." ++ text_slot
  | qa, Intermediate =>
      "Generate questions that require understanding relationships..." ++ text_slot
  | qa, Advanced =>
      "Generate challenging questions that require critical thinking..." ++ text_slot
  | flashcards, Beginner =>
      "Identify 5-7 fundamental terms from this text. For each, provide a 'Term:' on one line and a 'Definition:' on the next, suitable for a beginner." ++ text_slot
  | flashcards, Intermediate =>
      "Identify 5-7 important technical terms from this text. For each, provide a 'Term:' on one line and a 'Definition:' on the next, suitable for a college student." ++ text_slot
  | flashcards, Advanced =>
      "Identify 5-7 nuanced or highly technical terms from this text. For each, provide a 'Term:' on one line and a 'Definition:' on the next, suitable for an expert." ++ text_slot
  end.

(** [template.format(text=chunk)] for a template whose only braces are
    those of the field [{text}]: every occurrence of the field is replaced
    by the chunk, which is not scanned again.  [skip] counts the characters
    of a field still to be passed over. *)
Fixpoint format_from (skip : nat) (template chunk : string) : string :=
  match template with
  | "" => ""
  | String c rest =>
      match skip with
      | S k => format_from k rest chunk
      | O =>
          if String.prefix "{text}" template
          then chunk ++ format_from 5 rest chunk
          else String c (format_from 0 rest chunk)
      end
  end.

Definition format_text (template chunk : string) : string :=
  format_from 0 template chunk.

(** What one [model.generate_content(prompt)] followed by [response.text]
    does inside the [try]: it yields a text, or an exception is raised
    whose [str] is the message. *)
Inductive outcome :=
  | Response (text : string)
  | Raised (message : string).

(** What the outside world sees of one run, in order. *)
Inductive event :=
  | Generate (prompt : string)
  | Progress (value : Q).

(** Python's [a / b] on integers: [ZeroDivisionError] for a zero divisor,
    else the quotient (kept exact here). *)
Definition true_div (a b : Z) : option Q :=
  match b with
  | Z0 => None
  | Zpos p => Some (a # p)
  | Zneg p => Some (- a # p)
  end.

(** The text a chunk adds to the result, by outcome. *)
Definition contribution (o : outcome) : string :=
  match o with
  | Response text => text ++ newline ++ newline
  | Raised message => "Error processing a chunk: " ++ message ++ newline ++ newline
  end.

Section WithService.

(** The generation service: any state, any transition.  A call reads
    the current state and the prompt, and gives an outcome and the next
    state. *)
Variable ServiceState : Type.
Variable generate_content : ServiceState -> string -> outcome * ServiceState.

Record run := mkRun {
  full_response : string;
  service : ServiceState;
  trace : list event
}.

(** The body of [for i, chunk in enumerate(text_chunks)]; [None] is an
    uncaught [ZeroDivisionError] of the progress computation. *)
Definition loop_body (prompt_template : string) (total : nat)
    (r : run) (i : nat) (chunk : string) : option run :=
  let prompt := format_text prompt_template chunk in
  let (o, s') := generate_content (service r) prompt in
  let full :=
    match o with
    | Response text => full_response r ++ (text ++ (newline ++ newline))
    | Raised e =>
        full_response r
        ++ ("Error processing a chunk: " ++ e ++ (newline ++ newline))
    end in
  match true_div (Z.of_nat i + 1) (Z.of_nat total) with
  | None => None
  | Some value =>
      Some (mkRun full s' (trace r ++ [Generate prompt; Progress value])%list)
  end.

Fixpoint loop (prompt_template : string) (total : nat) (i : nat)
    (rest : list string) (r : run) : option run :=
  match rest with
  | [] => Some r
  | chunk :: rest' =>
      match loop_body prompt_template total r i chunk with
      | None => None
      | Some r' => loop prompt_template total (S i) rest' r'
      end
  end.

Definition generate_content_with_gemini (text_chunks : list string)
    (g : generation_type) (d : difficulty) (s0 : ServiceState) : option run :=
  loop (PROMPTS g d) (List.length text_chunks) 0 text_chunks (mkRun "" s0 []).

(** The outcomes of the service when it is called on the prompts one
    after the other from state [s], and the state it is left in. *)
Fixpoint outcomes (prompts : list string) (s : ServiceState) : list outcome :=
  match prompts with
  | [] => []
  | p :: ps =>
      let (o, s') := generate_content s p in o :: outcomes ps s'
  end.

Fixpoint final_state (prompts : list string) (s : ServiceState) : ServiceState :=
  match prompts with
  | [] => s
  | p :: ps => final_state ps (snd (generate_content s p))
  end.

End WithService.

Arguments mkRun {ServiceState} full_response service trace.
Arguments full_response {ServiceState} r.
Arguments service {ServiceState} r.
Arguments trace {ServiceState} r.
Arguments loop_body {ServiceState} generate_content prompt_template total r i chunk.
Arguments loop {ServiceState} generate_content prompt_template total i rest r.
Arguments generate_content_with_gemini {ServiceState} generate_content text_chunks g d s0.
Arguments outcomes {ServiceState} generate_content prompts s.
Arguments final_state {ServiceState} generate_content prompts s.

(** The prompt sent for a chunk. *)
Definition prompt_for (g : generation_type) (d : difficulty) (chunk : string) : string :=
  format_text (PROMPTS g d) chunk.

(** The events of a complete run over [n] chunks: for each chunk its call,
    then the progress report [(i+1)/n]. *)
Fixpoint expected_trace (n : positive) (i : nat) (prompts : list string) : list event :=
  match prompts with
  | [] => []
  | p :: ps =>
      Generate p :: Progress ((Z.of_nat i + 1) # n) :: expected_trace n (S i) ps
  end.

(** The resilience scenario of the specification: three chunks, the
    service fails on the second call only.  The service state counts the
    calls. *)
Definition fails_on_second (calls : nat) (prompt : string) : outcome * nat :=
  (match calls with
   | 1%nat => Raised "quota exceeded"
   | _ => Response ("ok " ++ String (ascii_of_nat (49 + calls)) "")
   end, S calls).

End Pipeline.

(* ================================================================== *)
(** * The flashcard viewer (script of flashcard_component, lines 246-294) *)
(* ================================================================== *)

Module Viewer.
Import Parser.

(** The mutable state of the script: the variable [currentIndex] and what
    it has written to the page. *)
Record view := mkView {
  currentIndex : Z;
  is_flipped : bool;
  front : option string;
  back : option string;
  counter : option (Z * Z);
  prev_disabled : bool;
  next_disabled : bool
}.

Definition deck_length (deck : list flashcard) : Z := Z.of_nat (List.length deck).

(** [flashcards[index]]: [undefined] outside the array. *)
Definition card_at (deck : list flashcard) (index : Z) : option flashcard :=
  if (index <? 0)%Z then None else nth_error deck (Z.to_nat index).

(** [showCard(index)].  Reading a field of [undefined] throws before
    anything is written, which leaves the page as it was. *)
Definition showCard (deck : list flashcard) (index : Z) (v : view) : view :=
  if (deck_length deck =? 0)%Z then v
  else match card_at deck index with
       | None => v
       | Some card =>
           mkView (currentIndex v) false
                  (Some (term card)) (Some (definition card))
                  (Some (index + 1, deck_length deck)%Z)
                  (index =? 0)%Z
                  (index =? deck_length deck - 1)%Z
       end.

Definition set_index (i : Z) (v : view) : view :=
  mkView i (is_flipped v) (front v) (back v) (counter v)
         (prev_disabled v) (next_disabled v).

Inductive user_event := Click | Previous | Next.

(** The three click listeners. *)
Definition on_card_click (v : view) : view :=
  mkView (currentIndex v) (negb (is_flipped v)) (front v) (back v) (counter v)
         (prev_disabled v) (next_disabled v).

Definition on_prev (deck : list flashcard) (v : view) : view :=
  if (0 <? currentIndex v)%Z
  then let v' := set_index (currentIndex v - 1) v in
       showCard deck (currentIndex v') v'
  else v.

Definition on_next (deck : list flashcard) (v : view) : view :=
  if (currentIndex v <? deck_length deck - 1)%Z
  then let v' := set_index (currentIndex v + 1) v in
       showCard deck (currentIndex v') v'
  else v.

(** The listener that runs for an event, once the script has installed
    the three of them. *)
Definition listener (deck : list flashcard) (v : view) (e : user_event) : view :=
  match e with
  | Click => on_card_click v
  | Previous => on_prev deck v
  | Next => on_next deck v
  end.

(** The script from [let currentIndex = 0] to its last line,
    [showCard(currentIndex)]. *)
Definition script_start (deck : list flashcard) : view :=
  showCard deck 0 (mkView 0 false None None None false false).

(** ** How the deck reaches the script (lines 126 and 247)

    [flashcard_component] pastes [json.dumps(flashcards_data)] into the
    inline script element as it is. *)

Definition quoted (s : string) : string :=
  String Pipeline.dquote (s ++ String Pipeline.dquote "").

Definition hex_digit (n : N) : ascii :=
  ascii_of_N (if (n <? 10)%N then 48 + n else 87 + n).

(** One character of a JSON string as [json.dumps] writes it with
    [ensure_ascii]: the quote and the backslash get a backslash, the five
    short escapes are used, and every other character outside the range
    from the space to the tilde becomes a [u] escape of four hex digits. *)
Definition json_char (c : ascii) : string :=
  let n := N_of_ascii c in
  if (n =? 34)%N then String "\" (String c "")
  else if (n =? 92)%N then String c (String c "")
  else if (n =? 8)%N then "\b"
  else if (n =? 9)%N then "\t"
  else if (n =? 10)%N then "\n"
  else if (n =? 12)%N then "\f"
  else if (n =? 13)%N then "\r"
  else if ((32 <=? n) && (n <=? 126))%N then String c ""
  else "\u00" ++ String (hex_digit (n / 16)) (String (hex_digit (n mod 16)) "").

Fixpoint json_chars (s : string) : string :=
  match s with
  | "" => ""
  | String c rest => json_char c ++ json_chars rest
  end.

Definition json_string (s : string) : string := quoted (json_chars s).

(** One dict, keys in insertion order, and the list, with the default
    separators of [json.dumps]. *)
Definition json_card (c : flashcard) : string :=
  "{" ++ quoted "term" ++ ": " ++ json_string (term c) ++ ", "
  ++ quoted "definition" ++ ": " ++ json_string (definition c) ++ "}".

Definition json_dumps (deck : list flashcard) : string :=
  "[" ++ String.concat ", " (map json_card deck) ++ "]".

(** The text of the script element around the deck, from the opening tag
    to the closing one (the f-string with its doubled braces read back). *)
Definition script_head : string :=
  "
            const flashcards = ".

Definition script_tail : string :=
  ";
            let currentIndex = 0;

            const cardElement = document.getElementById('flashcard');
            const cardFront = document.getElementById('card-front');
            const cardBack = document.getElementById('card-back');
            const prevBtn = document.getElementById('prevBtn');
            const nextBtn = document.getElementById('nextBtn');
            const cardCounter = document.getElementById('card-counter');

            function showCard(index) {
                if (flashcards.length === 0) return;
                const card = flashcards[index];
                cardFront.innerHTML = `<div class="
  ++ quoted "term-title" ++ ">${card.term}</div>`;
                cardBack.innerHTML = `<div class="
  ++ quoted "definition-text" ++ ">${card.definition}</div>`;
                
                // Reset flip state
                cardElement.classList.remove('is-flipped');
                
                // Update counter and button states
                cardCounter.textContent = `${index + 1} / ${flashcards.length}`;
                prevBtn.disabled = index === 0;
                nextBtn.disabled = index === flashcards.length - 1;
            }

            // Flip card on click
            cardElement.addEventListener('click', () => {
                cardElement.classList.toggle('is-flipped');
            });

            // Navigation
            prevBtn.addEventListener('click', () => {
                if (currentIndex > 0) {
                    currentIndex--;
                    showCard(currentIndex);
                }
            });

            nextBtn.addEventListener('click', () => {
                if (currentIndex < flashcards.length - 1) {
                    currentIndex++;
                    showCard(currentIndex);
                }
            });

            // Initial load
            showCard(currentIndex);
        ".

Definition script_text (deck : list flashcard) : string :=
  script_head ++ json_dumps deck ++ script_tail.

(** ** Where the browser ends the script element

    The states of the HTML tokenizer inside a script element: script data,
    the states of an end tag, of an escaped section (after a comment
    opener) and of a double escaped section (after a script start tag in
    an escaped section).  [Closed] is reached when an end tag [script] is
    read outside a double escaped section. *)
Inductive tok :=
  | Data | DataLT | EndOpen | EndName (name : string)
  | EscStart | EscStartDash
  | Esc | EscDash | EscDashDash | EscLT | EscEndOpen | EscEndName (name : string)
  | DblStart (name : string)
  | Dbl | DblDash | DblDashDash | DblLT | DblEnd (name : string)
  | Closed.

Definition is_alpha (c : ascii) : bool :=
  let n := N_of_ascii c in
  ((65 <=? n) && (n <=? 90) || (97 <=? n) && (n <=? 122))%N.

Definition ascii_lower (c : ascii) : ascii :=
  let n := N_of_ascii c in
  if ((65 <=? n) && (n <=? 90))%N then ascii_of_N (n + 32) else c.

(** White space, a slash or a greater-than sign: what ends a tag name. *)
Definition ends_name (c : ascii) : bool :=
  let n := N_of_ascii c in
  ((n =? 9) || (n =? 10) || (n =? 12) || (n =? 13) || (n =? 32)
   || (n =? 47) || (n =? 62))%N.

Definition is_char (c : ascii) (n : N) : bool := (N_of_ascii c =? n)%N.

Definition add_letter (name : string) (c : ascii) : string :=
  name ++ String (ascii_lower c) "".

Definition in_data (c : ascii) : tok :=
  if is_char c 60 then DataLT else Data.

Definition in_esc (c : ascii) : tok :=
  if is_char c 45 then EscDash else if is_char c 60 then EscLT else Esc.

Definition in_dbl (c : ascii) : tok :=
  if is_char c 45 then DblDash else if is_char c 60 then DblLT else Dbl.

Definition tok_step (q : tok) (c : ascii) : tok :=
  match q with
  | Data => in_data c
  | DataLT =>
      if is_char c 47 then EndOpen
      else if is_char c 33 then EscStart
      else in_data c
  | EndOpen => if is_alpha c then EndName (add_letter "" c) else in_data c
  | EndName name =>
      if is_alpha c then EndName (add_letter name c)
      else if ends_name c && String.eqb name "script" then Closed
      else in_data c
  | EscStart => if is_char c 45 then EscStartDash else in_data c
  | EscStartDash => if is_char c 45 then EscDashDash else in_data c
  | Esc => in_esc c
  | EscDash =>
      if is_char c 45 then EscDashDash
      else if is_char c 60 then EscLT
      else Esc
  | EscDashDash =>
      if is_char c 45 then EscDashDash
      else if is_char c 60 then EscLT
      else if is_char c 62 then Data
      else Esc
  | EscLT =>
      if is_char c 47 then EscEndOpen
      else if is_alpha c then DblStart (add_letter "" c)
      else in_esc c
  | EscEndOpen => if is_alpha c then EscEndName (add_letter "" c) else in_esc c
  | EscEndName name =>
      if is_alpha c then EscEndName (add_letter name c)
      else if ends_name c && String.eqb name "script" then Closed
      else in_esc c
  | DblStart name =>
      if ends_name c then (if String.eqb name "script" then Dbl else Esc)
      else if is_alpha c then DblStart (add_letter name c)
      else in_esc c
  | Dbl => in_dbl c
  | DblDash =>
      if is_char c 45 then DblDashDash
      else if is_char c 60 then DblLT
      else Dbl
  | DblDashDash =>
      if is_char c 45 then DblDashDash
      else if is_char c 60 then DblLT
      else if is_char c 62 then Data
      else Dbl
  | DblLT => if is_char c 47 then DblEnd "" else in_dbl c
  | DblEnd name =>
      if ends_name c then (if String.eqb name "script" then Esc else Dbl)
      else if is_alpha c then DblEnd (add_letter name c)
      else in_dbl c
  | Closed => Closed
  end.

Fixpoint tokenize (s : string) (q : tok) : tok :=
  match s with
  | "" => q
  | String c rest => tokenize rest (tok_step q c)
  end.

(** The script runs as written when the element is not closed inside the
    text and the closing tag that follows the text closes it.  Cut short,
    the text stops inside a string literal, which is a syntax error, so
    no statement of it runs. *)
Definition script_runs (deck : list flashcard) : bool :=
  match tokenize (script_text deck) Data with
  | Closed => false
  | q =>
      match tokenize "</script>" q with
      | Closed => true
      | _ => false
      end
  end.

(** The state of a running script after a sequence of events. *)
Definition script_run (deck : list flashcard) (events : list user_event) : view :=
  fold_left (listener deck) events (script_start deck).

(** The page: as the markup has it, with no listener, or with the script
    running in some state.  The script reads the array that the JSON text
    denotes, which is the deck. *)
Inductive page :=
  | Static
  | Live (v : view).

Definition initial (deck : list flashcard) : page :=
  if script_runs deck then Live (script_start deck) else Static.

Definition handle (deck : list flashcard) (p : page) (e : user_event) : page :=
  match p with
  | Static => Static
  | Live v => Live (listener deck v e)
  end.

Definition run (deck : list flashcard) (events : list user_event) : page :=
  fold_left (handle deck) events (initial deck).

(** No field of the deck holds a less-than sign. *)
Definition no_less_than (deck : list flashcard) : Prop :=
  Forall (fun c => PyStr.contains "<" (term c) = false
                   /\ PyStr.contains "<" (definition c) = false) deck.

(** A deck whose first term is the closing tag of a script element; the
    parser returns it for the raw text [Term: &lt;/script&gt;] followed by
    a definition line, once the markup pass has decoded the entities. *)
Definition closing_tag_deck : list flashcard :=
  [mkCard "</script>" "d"].

(** A deck of three cards, for examples. *)
Definition three_cards : list flashcard :=
  [mkCard "Cell" "The unit of life";
   mkCard "Gene" "A unit of heredity";
   mkCard "Osmosis" "Diffusion of water"].

End Viewer.

(* ================================================================== *)
(** * The button handler (app.py, lines 313-350) *)
(* ================================================================== *)

Module Handler.
Import PyStr Chunker Parser Pipeline.

(** What the page shows once the handler is through: the error of line
    318, or the three tabs.  In the third tab the viewer is shown when
    [parsed_flashcards] is truthy, else the warning and the raw text. *)
Record guide := mkGuide {
  summaries : string;
  qa_pairs : string;
  flashcards_raw : string;
  parsed_flashcards : list flashcard
}.

Inductive page :=
  | ExtractionError
  | StudyGuide (g : guide).

(** [if parsed_flashcards:] of line 345. *)
Definition shows_viewer (g : guide) : bool :=
  match parsed_flashcards g with
  | [] => false
  | _ :: _ => true
  end.

(** The prompts of the calls of a trace, in order. *)
Definition calls (tr : list event) : list string :=
  flat_map (fun e => match e with
                     | Generate prompt => [prompt]
                     | Progress _ => []
                     end) tr.

Section WithCollaborators.

Variable ServiceState : Type.
Variable generate_content : ServiceState -> string -> outcome * ServiceState.
Variable get_text : string -> string.

(** The handler from the extracted [raw_text] on (lines 317-350): the
    page, the state the service is left in and all calls and progress
    reports, in order; [None] is an uncaught exception.  The three passes
    run one after the other on the same chunks. *)
Definition on_generate (raw_text : string) (d : difficulty) (s0 : ServiceState)
  : option (page * ServiceState * list event) :=
  match handler_text_chunks raw_text with
  | None => Some (ExtractionError, s0, [])
  | Some text_chunks =>
      match generate_content_with_gemini generate_content text_chunks summary d s0 with
      | None => None
      | Some r1 =>
          match generate_content_with_gemini generate_content text_chunks qa d
                  (service r1) with
          | None => None
          | Some r2 =>
              match generate_content_with_gemini generate_content text_chunks
                      flashcards d (service r2) with
              | None => None
              | Some r3 =>
                  Some (StudyGuide
                          (mkGuide (full_response r1) (full_response r2)
                                   (full_response r3)
                                   (parse_flashcards get_text (full_response r3))),
                        service r3,
                        (trace r1 ++ trace r2 ++ trace r3)%list)
              end
          end
      end
  end.

End WithCollaborators.

Arguments on_generate {ServiceState} generate_content get_text raw_text d s0.

End Handler.

(* ================================================================== *)
(** * Notions used to state further properties *)
(* ================================================================== *)

Module Notions.
Import PyStr Parser Pipeline.

(** A string that ends in a line feed. *)
Definition ends_with_newline (s : string) : Prop :=
  exists body, s = body ++ newline.

(** A string on one line that [strip] leaves alone. *)
Definition tidy (s : string) : Prop :=
  contains nl s = false /\ strip s = s.

(** The pair a record is written back as. *)
Definition pair_of (c : flashcard) : string * string :=
  (term c, definition c).

(** How many lines of a list the parser takes for term lines, and for
    definition lines. *)
Definition count_term_lines (text_lines : list string) : nat :=
  List.length (filter is_term_line text_lines).

Definition count_definition_lines (text_lines : list string) : nat :=
  List.length (filter is_definition_line text_lines).

(** A progress value the progress bar accepts, and not zero. *)
Definition progress_in_range (e : event) : Prop :=
  match e with
  | Generate _ => True
  | Progress value => (0 < value /\ value <= 1)%Q
  end.

(** The character that opens a format field. *)
Definition lbrace : ascii := "{"%char.

(** The text in front of the chunk in every prompt, after the
    instruction: a blank line, the label and three double quotes. *)
Definition slot_head : string := newline ++ newline ++ "Text: " ++ triple_quote.

(** The invariant of the parser loop behind clean fields. *)
Definition tidy_pending (v : option string) : Prop :=
  forall s, v = Some s -> tidy s.

Definition clean_card (c : flashcard) : Prop :=
  clean (term c) /\ clean (definition c).

Definition tidy_state (st : pstate) : Prop :=
  Forall clean_card (Parser.flashcards st)
  /\ tidy_pending (pending_term st)
  /\ tidy_pending (pending_definition st).

(** The value the parser reads from a line after [n] characters of
    keyword. *)
Definition line_value (n : nat) (raw_line : string) : string :=
  strip (slice_from n (strip raw_line)).

(** A record whose term is the value of a term line of [text_lines] and
    whose definition is the value of a definition line of it. *)
Definition read_from (text_lines : list string) (c : flashcard) : Prop :=
  exists term_line definition_line,
    In term_line text_lines /\ In definition_line text_lines
    /\ is_term_line term_line = true
    /\ is_definition_line definition_line = true
    /\ term c = line_value 5 term_line
    /\ definition c = line_value 11 definition_line.

(** Saved records plus a pending term, the same with a pending
    definition: what the loop can still emit is bounded by them. *)
Definition term_weight (st : pstate) : nat :=
  List.length (Parser.flashcards st)
  + match pending_term st with Some _ => 1 | None => 0 end.

Definition definition_weight (st : pstate) : nat :=
  List.length (Parser.flashcards st)
  + match pending_definition st with Some _ => 1 | None => 0 end.

(** The invariant of the parser loop behind [read_from]: what is saved
    and what is pending was read from the lines seen so far. *)
Definition read_state (seen : list string) (st : pstate) : Prop :=
  Forall (read_from seen) (Parser.flashcards st)
  /\ (forall t, pending_term st = Some t ->
         exists l, In l seen /\ is_term_line l = true /\ t = line_value 5 l)
  /\ (forall d, pending_definition st = Some d ->
         exists l, In l seen /\ is_definition_line l = true
                   /\ d = line_value 11 l).

End Notions.

Module ViewerNotions.
Import Parser Viewer.

(** The page shows the card at [currentIndex]: its term on the front, its
    definition on the back, the counter and the two buttons set for that
    index. *)
Definition shows_current_card (deck : list flashcard) (v : view) : Prop :=
  exists card,
    nth_error deck (Z.to_nat (currentIndex v)) = Some card
    /\ front v = Some (term card)
    /\ back v = Some (definition card)
    /\ counter v = Some (currentIndex v + 1, deck_length deck)%Z
    /\ prev_disabled v = (currentIndex v =? 0)%Z
    /\ next_disabled v = (currentIndex v =? deck_length deck - 1)%Z.

(** The view [v] turned front side up. *)
Definition front_facing (v : view) : view :=
  mkView (currentIndex v) false (front v) (back v) (counter v)
         (prev_disabled v) (next_disabled v).

End ViewerNotions.

(* ================================================================== *)
(** * Facts about the string primitives *)
(* ================================================================== *)

Module PyStrFacts.
Import PyStr.

Lemma append_nil_r (s : string) : s ++ "" = s.
Proof. induction s as [|c s IH]; simpl; [reflexivity | now rewrite IH]. Qed.

Lemma append_assoc (s t u : string) : (s ++ t) ++ u = s ++ (t ++ u).
Proof. induction s as [|c s IH]; simpl; [reflexivity | now rewrite IH]. Qed.

Lemma length_append (s t : string) :
  length (s ++ t) = (length s + length t)%nat.
Proof. induction s as [|c s IH]; simpl; [reflexivity | now rewrite IH]. Qed.

Lemma truthy_true_iff (s : string) : truthy s = true <-> s <> "".
Proof. destruct s; simpl; split; intros; congruence. Qed.

Lemma truthy_append_newline (s t : string) : truthy ((s ++ newline) ++ t) = true.
Proof. destruct s; reflexivity. Qed.

Lemma join_all_app (xs ys : list string) :
  join_all (xs ++ ys) = join_all xs ++ join_all ys.
Proof.
  induction xs as [|x xs IH]; simpl; [reflexivity|].
  now rewrite IH, append_assoc.
Qed.

Lemma split_not_nil (sep : ascii) (s : string) : split sep s <> [].
Proof.
  destruct s as [|c s]; simpl; [discriminate|].
  destruct (Ascii.eqb c sep); [discriminate|].
  destruct (split sep s); discriminate.
Qed.

(** Joining the fields with the separator gives the text back. *)
Lemma concat_split (sep : ascii) (s : string) :
  String.concat (String sep "") (split sep s) = s.
Proof.
  induction s as [|c s IH]; [reflexivity|].
  simpl. destruct (Ascii.eqb_spec c sep) as [->|Hne].
  - pose proof (split_not_nil sep s) as Hnn.
    destruct (split sep s) as [|f fs]; [congruence|].
    simpl in IH |- *. now rewrite IH.
  - pose proof (split_not_nil sep s) as Hnn.
    destruct (split sep s) as [|f fs]; [congruence|].
    destruct fs as [|f' fs]; simpl in IH |- *; now rewrite <- IH.
Qed.

Lemma contains_append (c : ascii) (s t : string) :
  contains c (s ++ t) = contains c s || contains c t.
Proof.
  induction s as [|d s IH]; simpl; [reflexivity|].
  now rewrite IH, orb_assoc.
Qed.

(** A text without the separator is its own single field. *)
Lemma split_no_sep (sep : ascii) (s : string) :
  contains sep s = false -> split sep s = [s].
Proof.
  induction s as [|c s IH]; simpl; [reflexivity|].
  intros H. apply orb_false_iff in H as [Hc Hs].
  rewrite Hc, (IH Hs). reflexivity.
Qed.

Lemma split_append_sep (sep : ascii) (s t : string) :
  contains sep s = false ->
  split sep (s ++ String sep t) = s :: split sep t.
Proof.
  induction s as [|c s IH]; simpl; intros H.
  - now rewrite Ascii.eqb_refl.
  - apply orb_false_iff in H as [Hc Hs].
    rewrite Hc, (IH Hs). reflexivity.
Qed.

(** Splitting undoes joining when no field holds the separator. *)
Lemma split_concat (sep : ascii) (fields : list string) :
  fields <> [] ->
  Forall (fun f => contains sep f = false) fields ->
  split sep (String.concat (String sep "") fields) = fields.
Proof.
  induction fields as [|f fs IH]; [congruence|].
  intros _ Hall. inversion Hall as [|? ? Hf Hfs]; subst.
  destruct fs as [|g gs].
  - simpl. now apply split_no_sep.
  - change (String.concat (String sep "") (f :: g :: gs))
      with (f ++ String sep "" ++ String.concat (String sep "") (g :: gs)).
    specialize (IH ltac:(discriminate) Hfs).
    remember (String.concat (String sep "") (g :: gs)) as tail eqn:Ht.
    change (String sep "" ++ tail) with (String sep tail).
    rewrite split_append_sep by assumption.
    now rewrite IH.
Qed.

End PyStrFacts.

(* ================================================================== *)
(** * Facts about the chunker *)
(* ================================================================== *)

Module ChunkerFacts.
Import PyStr PyStrFacts Chunker.

Lemma render_app (g h : list string) : render (g ++ h) = render g ++ render h.
Proof. unfold render. now rewrite map_app, join_all_app. Qed.

Lemma render_single (p : string) : render [p] = p ++ newline.
Proof. unfold render. simpl. apply append_nil_r. Qed.

Lemma render_truthy (g : list string) : g <> [] -> truthy (render g) = true.
Proof.
  destruct g as [|p g]; [congruence|]. intros _.
  unfold render. simpl. apply truthy_append_newline.
Qed.

(** Every paragraph followed by its newline, written one after the other,
    is the text followed by one newline. *)
Lemma render_split (text : string) : render (split nl text) = text ++ newline.
Proof.
  induction text as [|c text IH]; [reflexivity|].
  simpl split. destruct (Ascii.eqb_spec c nl) as [->|Hne].
  - change (render ("" :: split nl text))
      with (newline ++ render (split nl text)).
    now rewrite IH.
  - pose proof (split_not_nil nl text) as Hnn.
    destruct (split nl text) as [|f fs]; [congruence|].
    change (render (String c f :: fs)) with (String c (render (f :: fs))).
    now rewrite IH.
Qed.

Lemma length_render_single (p : string) :
  length (render [p]) = (length p + 1)%nat.
Proof. rewrite render_single, length_append. reflexivity. Qed.

(** The loop invariant: the chunks emitted so far and the accumulator are
    the renderings of consecutive groups of the paragraphs read so far. *)
Lemma loop_groups (chunk_size : Z) (paragraphs : list string) :
  forall (done : list (list string)) (open : list string),
    Forall (bounded chunk_size) done ->
    bounded chunk_size open ->
    exists done' open',
      fold_left (chunk_step chunk_size) paragraphs
                (mkAcc (map render done) (render open))
      = mkAcc (map render done') (render open')
      /\ (List.concat done' ++ open' = List.concat done ++ open ++ paragraphs)%list
      /\ Forall (bounded chunk_size) done'
      /\ bounded chunk_size open'
      /\ (open <> [] \/ paragraphs <> [] -> open' <> []).
Proof.
  induction paragraphs as [|p ps IH]; intros done open Hdone Hopen.
  - exists done, open. simpl. rewrite app_nil_r. repeat split; auto.
    intros [H|H]; congruence.
  - simpl fold_left. unfold chunk_step at 2. simpl chunks. simpl current_chunk.
    destruct (Z.ltb_spec
                (Z.of_nat (length (render open)) + Z.of_nat (length p) + 1)
                chunk_size) as [Hlt|Hge].
    + assert (Hr : render open ++ (p ++ newline) = render (open ++ [p])).
      { now rewrite render_app, render_single. }
      rewrite Hr.
      destruct (IH done (open ++ [p])%list Hdone) as (d' & o' & Hf & Hc & Hd & Ho & Hn).
      { right; left. rewrite <- Hr, !length_append. simpl length. lia. }
      exists d', o'. rewrite Hf. repeat split; auto.
      * rewrite Hc, <- !app_assoc. reflexivity.
      * intros _. apply Hn. left. destruct open; discriminate.
    + rewrite <- (render_single p).
      replace (map render done ++ [render open])%list
        with (map render (done ++ [open])%list) by now rewrite map_app.
      destruct (IH (done ++ [open])%list [p]) as (d' & o' & Hf & Hc & Hd & Ho & Hn).
      { apply Forall_app. split; auto. }
      { destruct (Z.ltb_spec (Z.of_nat (length p) + 1) chunk_size) as [Hs|Hb].
        - right; left. rewrite length_render_single. lia.
        - right; right. exists p. split; [reflexivity | lia]. }
      exists d', o'. rewrite Hf. repeat split; auto.
      * rewrite Hc, concat_app. simpl. rewrite app_nil_r, <- !app_assoc. reflexivity.
      * intros _. apply Hn. left. discriminate.
Qed.

(** The result of [chunk_text]: consecutive groups of the paragraphs, each
    rendered as one chunk, the last group never empty. *)
Lemma chunk_text_groups (text : string) (chunk_size : Z) :
  exists init last,
    last <> []
    /\ List.concat (init ++ [last]) = split nl text
    /\ chunk_text text chunk_size = map render (init ++ [last])
    /\ Forall (bounded chunk_size) (init ++ [last]).
Proof.
  destruct (loop_groups chunk_size (split nl text) [] [])
    as (d & o & Hf & Hc & Hd & Ho & Hn); [constructor | now left |].
  change (map render []) with (@nil string) in Hf.
  change (render []) with "" in Hf. simpl in Hc.
  assert (Hne : o <> []) by (apply Hn; right; apply split_not_nil).
  exists d, o. repeat split; auto.
  - rewrite concat_app. simpl. now rewrite app_nil_r.
  - unfold chunk_text. cbv zeta. rewrite Hf. simpl chunks. simpl current_chunk.
    rewrite (render_truthy o Hne), map_app. reflexivity.
  - apply Forall_app. split; auto.
Qed.

Lemma bounded_within (text : string) (chunk_size : Z) (groups : list (list string)) :
  incl (List.concat groups) (split nl text) ->
  Forall (bounded chunk_size) groups ->
  Forall (within_bound text chunk_size) (map render groups).
Proof.
  induction groups as [|g gs IH]; intros Hin Hall; [constructor|].
  inversion Hall as [|? ? Hg Hgs]; subst. simpl in Hin.
  simpl. constructor.
  - destruct Hg as [->|[Hlt|(p & -> & Hp)]].
    + now left.
    + right; left; exact Hlt.
    + right; right. exists p. repeat split; auto.
      * apply Hin. now left.
      * apply render_single.
  - apply IH; auto. intros x Hx. apply Hin, in_or_app. now right.
Qed.

Lemma join_all_render (groups : list (list string)) :
  join_all (map render groups) = render (List.concat groups).
Proof.
  induction groups as [|g gs IH]; simpl; [reflexivity|].
  now rewrite IH, render_app.
Qed.

(** From a non-empty accumulator on, every group the loop closes is
    non-empty, and so is the accumulator at the end. *)
Lemma loop_nonempty_groups (chunk_size : Z) (paragraphs : list string) :
  forall (cs : list string) (open : list string),
    open <> [] ->
    bounded chunk_size open ->
    exists closed open',
      fold_left (chunk_step chunk_size) paragraphs (mkAcc cs (render open))
      = mkAcc (cs ++ map render closed)%list (render open')
      /\ (List.concat closed ++ open' = open ++ paragraphs)%list
      /\ Forall (fun g => g <> [] /\ bounded chunk_size g) closed
      /\ open' <> []
      /\ bounded chunk_size open'.
Proof.
  induction paragraphs as [|p ps IH]; intros cs open Hne Hb.
  - exists [], open. simpl. rewrite !app_nil_r. auto.
  - simpl fold_left. unfold chunk_step at 2. simpl chunks. simpl current_chunk.
    destruct (Z.ltb_spec
                (Z.of_nat (length (render open)) + Z.of_nat (length p) + 1)
                chunk_size) as [Hlt|Hge].
    + assert (Hr : render open ++ (p ++ newline) = render (open ++ [p])).
      { now rewrite render_app, render_single. }
      rewrite Hr.
      destruct (IH cs (open ++ [p])%list) as (cl & o' & Hf & Hc & Hcl & Ho & Hbo).
      { destruct open; discriminate. }
      { right; left. rewrite <- Hr, !length_append. simpl length. lia. }
      exists cl, o'. rewrite Hf. repeat split; auto.
      rewrite Hc, <- app_assoc. reflexivity.
    + rewrite <- (render_single p).
      destruct (IH (cs ++ [render open])%list [p]) as (cl & o' & Hf & Hc & Hcl & Ho & Hbo).
      { discriminate. }
      { destruct (Z.ltb_spec (Z.of_nat (length p) + 1) chunk_size) as [Hs|Hbig].
        - right; left. rewrite length_render_single. lia.
        - right; right. exists p. split; [reflexivity | lia]. }
      exists (open :: cl), o'. rewrite Hf. repeat split; auto.
      * now rewrite <- app_assoc.
      * simpl. rewrite <- app_assoc, Hc. reflexivity.
Qed.

(** The groups of [chunk_text]: a first one, which alone can be empty,
    and the others. *)
Lemma chunk_text_first_group (text : string) (chunk_size : Z) :
  exists first others,
    List.concat (first :: others) = split nl text
    /\ chunk_text text chunk_size = map render (first :: others)
    /\ Forall (bounded chunk_size) (first :: others)
    /\ Forall (fun g => g <> []) others.
Proof.
  unfold chunk_text. cbv zeta.
  pose proof (split_not_nil nl text) as Hnn.
  destruct (split nl text) as [|p ps]; [congruence|]. clear Hnn.
  assert (Hbp : bounded chunk_size [p]).
  { destruct (Z.ltb_spec (Z.of_nat (length p) + 1) chunk_size) as [Hs|Hbig].
    - right; left. rewrite length_render_single. lia.
    - right; right. exists p. split; [reflexivity | lia]. }
  simpl fold_left.
  destruct (Z.ltb_spec (Z.of_nat (length p) + 1) chunk_size) as [Hlt|Hge].
  - assert (Hs : chunk_step chunk_size (mkAcc [] "") p = mkAcc [] (render [p])).
    { unfold chunk_step. simpl chunks. simpl current_chunk. rewrite render_single.
      destruct (Z.ltb_spec (Z.of_nat (length "") + Z.of_nat (length p) + 1)
                           chunk_size) as [_|H]; [reflexivity | simpl in H; lia]. }
    rewrite Hs.
    destruct (loop_nonempty_groups chunk_size ps [] [p])
      as (cl & o & Hf & Hc & Hcl & Ho & Hbo); [discriminate | exact Hbp |].
    rewrite Hf. simpl chunks. simpl current_chunk. rewrite (render_truthy o Ho).
    assert (Hall : Forall (fun g => g <> [] /\ bounded chunk_size g) (cl ++ [o])%list).
    { apply Forall_app. split; [exact Hcl|]. constructor; [now split | constructor]. }
    assert (Hcat : List.concat (cl ++ [o]) = p :: ps).
    { rewrite concat_app. simpl. now rewrite app_nil_r. }
    match goal with
    | |- context [ (?l ++ [render o])%list ] =>
        replace (l ++ [render o])%list with (map render (cl ++ [o])%list)
          by now rewrite map_app
    end.
    destruct (cl ++ [o])%list as [|g gs] eqn:Hgs; [destruct cl; discriminate|].
    exists g, gs. repeat split; auto.
    + eapply Forall_impl; [|exact Hall]. now intros x [_ Hx].
    + inversion Hall; subst. eapply Forall_impl; [|eassumption]. now intros x [Hx _].
  - assert (Hs : chunk_step chunk_size (mkAcc [] "") p = mkAcc [""] (render [p])).
    { unfold chunk_step. simpl chunks. simpl current_chunk. rewrite render_single.
      destruct (Z.ltb_spec (Z.of_nat (length "") + Z.of_nat (length p) + 1)
                           chunk_size) as [H|_]; [simpl in H; lia | reflexivity]. }
    rewrite Hs.
    destruct (loop_nonempty_groups chunk_size ps [""] [p])
      as (cl & o & Hf & Hc & Hcl & Ho & Hbo); [discriminate | exact Hbp |].
    rewrite Hf. simpl chunks. simpl current_chunk. rewrite (render_truthy o Ho).
    exists [], (cl ++ [o])%list. repeat split.
    + simpl. rewrite concat_app. simpl. now rewrite app_nil_r.
    + simpl. now rewrite map_app.
    + constructor; [now left|]. apply Forall_app. split.
      * eapply Forall_impl; [|exact Hcl]. now intros x [_ Hx].
      * constructor; [assumption | constructor].
    + apply Forall_app. split.
      * eapply Forall_impl; [|exact Hcl]. now intros x [Hx _].
      * constructor; [assumption | constructor].
Qed.

(** C2 (as amended): [chunk_text] returns a first chunk and the chunks
    after it.  Every chunk is empty, or shorter than [chunk_size], or
    exactly one paragraph of the text followed by its newline where the
    paragraph and that newline together reach [chunk_size]; only the
    first chunk can be empty, every chunk after it is not.  The chunks are
    the renderings of consecutive groups of whole paragraphs, of which
    only the first can be empty, so no paragraph is split or truncated. *)
Theorem chunk_size_bound (text : string) (chunk_size : Z) :
  exists first rest,
    chunk_text text chunk_size = first :: rest
    /\ within_bound text chunk_size first
    /\ Forall (fun chunk => chunk <> "" /\ within_bound text chunk_size chunk) rest
    /\ exists groups,
         List.concat groups = split nl text
         /\ chunk_text text chunk_size = map render groups
         /\ Forall (fun g => g <> []) (tl groups).
Proof.
  destruct (chunk_text_first_group text chunk_size) as (g & gs & Hc & Ht & Hb & Hne).
  pose proof (bounded_within text chunk_size (g :: gs)) as Hw.
  rewrite Hc in Hw. specialize (Hw (incl_refl _) Hb).
  simpl map in Hw. inversion Hw as [|? ? Hfirst Hrest]; subst.
  exists (render g), (map render gs). split; [exact Ht|]. split; [exact Hfirst|].
  split.
  - clear -Hrest Hne. induction gs as [|x xs IH]; [constructor|].
    inversion Hrest; subst. inversion Hne; subst.
    simpl. constructor; [|now apply IH].
    split; [|assumption]. apply truthy_true_iff. now apply render_truthy.
  - exists (g :: gs). auto.
Qed.

(** C2 (as stated) fails: with [chunk_size = 3] the text [ab] gives the
    chunk [ab] plus newline, of length 3, which is not shorter than 3
    while its only paragraph, of length 2, is not longer than 3. *)
Lemma chunk_size_bound_as_stated_fails :
  chunk_text "ab" 3 = [""; "ab" ++ newline]
  /\ exists chunk,
       In chunk (chunk_text "ab" 3)
       /\ ~ within_bound_as_stated "ab" 3 chunk.
Proof.
  split; [reflexivity|].
  exists ("ab" ++ newline). split; [right; left; reflexivity|].
  intros [Hlt | (p & Hp & _ & Hlen)].
  - simpl in Hlt. lia.
  - simpl in Hp. destruct Hp as [<-|[]]. simpl in Hlen. lia.
Qed.

(** C3: the chunks of [chunk_text], concatenated in order, are the input
    text followed by the one newline added after the last paragraph; they
    are the paragraphs of the text, in order, each with its newline,
    grouped without loss. *)
Theorem chunks_concat_text (text : string) (chunk_size : Z) :
  join_all (chunk_text text chunk_size) = text ++ newline
  /\ exists groups,
       List.concat groups = split nl text
       /\ chunk_text text chunk_size = map render groups.
Proof.
  destruct (chunk_text_groups text chunk_size) as (d & o & _ & Hc & Ht & _).
  split.
  - now rewrite Ht, join_all_render, Hc, render_split.
  - now exists (d ++ [o])%list.
Qed.

(** [chunk_text] on the empty text, for every bound. *)
Lemma chunk_text_empty (chunk_size : Z) :
  chunk_text "" chunk_size
  = if (1 <? chunk_size)%Z then [newline] else [""; newline].
Proof.
  unfold chunk_text. simpl. unfold chunk_step. simpl.
  destruct (Z.ltb_spec 1 chunk_size); reflexivity.
Qed.

(** C9: for every text and every bound [chunk_text] returns a non-empty
    list whose last element is not empty and ends in a newline; the call
    [chunk_text] of the empty text, with the default bound, returns the
    one-element list holding a newline. *)
Theorem chunk_text_last_ends_newline :
  (forall (text : string) (chunk_size : Z),
      exists init body,
        chunk_text text chunk_size = (init ++ [(body ++ newline)%string])%list)
  /\ chunk_text "" default_chunk_size = [newline].
Proof.
  split; [|reflexivity].
  intros text chunk_size.
  destruct (chunk_text_groups text chunk_size) as (d & o & Hne & _ & Ht & _).
  destruct (exists_last Hne) as (ps & p & ->).
  exists (map render d), (render ps ++ p).
  rewrite Ht, map_app. simpl. f_equal. f_equal.
  now rewrite render_app, render_single, append_assoc.
Qed.

(** C8 (the code at the failing input): a document of one line of 2999
    characters passes the blank-text test of the handler, and the chunk
    sequence handed to the generation passes starts with the empty
    string. *)
Theorem handler_sends_empty_chunk :
  handler_text_chunks (repeat_char "a" 2999)
  = Some [""; repeat_char "a" 2999 ++ newline].
Proof. vm_compute. reflexivity. Qed.

(** Chunks already emitted stay where they are. *)
Lemma loop_keeps_head (chunk_size : Z) (paragraphs : list string) :
  forall (c : string) (cs : list string) (cur : string),
    exists cs' cur',
      fold_left (chunk_step chunk_size) paragraphs (mkAcc (c :: cs) cur)
      = mkAcc (c :: cs') cur'.
Proof.
  induction paragraphs as [|p ps IH]; intros c cs cur.
  - now exists cs, cur.
  - simpl fold_left. unfold chunk_step at 2. simpl chunks. simpl current_chunk.
    destruct (_ <? _)%Z; apply IH.
Qed.

(** The same for every text whose first paragraph, with its newline,
    reaches the bound: the first chunk is the empty string. *)
Lemma chunk_text_leading_empty (text : string) (chunk_size : Z) :
  (chunk_size <= Z.of_nat (length (hd "" (split nl text))) + 1)%Z ->
  hd "x" (chunk_text text chunk_size) = "".
Proof.
  intros H. unfold chunk_text. cbv zeta.
  pose proof (split_not_nil nl text) as Hnn.
  destruct (split nl text) as [|p ps]; [congruence|].
  simpl in H. simpl fold_left.
  assert (Hs : chunk_step chunk_size (mkAcc [] "") p = mkAcc [""] (p ++ newline)).
  { unfold chunk_step. simpl chunks. simpl current_chunk.
    destruct (Z.ltb_spec (Z.of_nat (length "") + Z.of_nat (length p) + 1) chunk_size)
      as [Hlt|_]; [simpl in Hlt; lia | reflexivity]. }
  rewrite Hs.
  destruct (loop_keeps_head chunk_size ps "" [] (p ++ newline)) as (cs & cur & ->).
  simpl. destruct (truthy cur); reflexivity.
Qed.

End ChunkerFacts.

(* ================================================================== *)
(** * Facts about the generation pipeline *)
(* ================================================================== *)

Module PipelineFacts.
Import PyStr PyStrFacts Pipeline.

Lemma true_div_pos (a : Z) (n : nat) :
  n <> 0%nat -> true_div a (Z.of_nat n) = Some (a # Pos.of_nat n).
Proof.
  destruct n as [|n]; [congruence|]. intros _.
  simpl. now rewrite Pos.of_nat_succ.
Qed.

Section Loop.

Variable ServiceState : Type.
Variable generate_content : ServiceState -> string -> outcome * ServiceState.

(** One iteration with a known number of chunks: it does not raise. *)
Lemma loop_body_runs (prompt_template : string) (total i : nat)
    (r : run ServiceState) (chunk : string) :
  total <> 0%nat ->
  loop_body generate_content prompt_template total r i chunk
  = Some (mkRun
            (full_response r
             ++ contribution
                  (fst (generate_content (service r)
                                         (format_text prompt_template chunk))))
            (snd (generate_content (service r)
                                   (format_text prompt_template chunk)))
            (trace r
             ++ [Generate (format_text prompt_template chunk);
                 Progress (Z.of_nat i + 1 # Pos.of_nat total)])%list).
Proof.
  intros Htotal. unfold loop_body.
  destruct (generate_content (service r) (format_text prompt_template chunk))
    as [o s'].
  rewrite (true_div_pos _ total Htotal).
  destruct o; reflexivity.
Qed.

(** The loop from any iteration on: it never raises, it appends one
    contribution per remaining chunk, and it reports progress after each
    call. *)
Lemma loop_runs (prompt_template : string) (total : nat) (rest : list string) :
  total <> 0%nat ->
  forall (i : nat) (r : run ServiceState),
    loop generate_content prompt_template total i rest r
    = Some (mkRun
              (full_response r
               ++ join_all (map contribution
                              (outcomes generate_content
                                        (map (format_text prompt_template) rest)
                                        (service r))))
              (final_state generate_content
                           (map (format_text prompt_template) rest) (service r))
              (trace r
               ++ expected_trace (Pos.of_nat total) i
                                 (map (format_text prompt_template) rest))%list).
Proof.
  intros Htotal. induction rest as [|chunk rest IH]; intros i r.
  - simpl. rewrite append_nil_r, app_nil_r. now destruct r.
  - cbn [loop]. rewrite (loop_body_runs _ _ _ _ _ Htotal), IH.
    cbn [map outcomes final_state expected_trace full_response service trace].
    destruct (generate_content (service r) (format_text prompt_template chunk))
      as [o s'].
    cbn [fst snd map join_all].
    now rewrite append_assoc, <- app_assoc.
Qed.

Lemma outcomes_length (prompts : list string) :
  forall s : ServiceState,
    List.length (outcomes generate_content prompts s) = List.length prompts.
Proof.
  induction prompts as [|p ps IH]; intros s; [reflexivity|].
  cbn [outcomes]. destruct (generate_content s p) as [o s'].
  simpl. now rewrite IH.
Qed.

End Loop.

(** C1: for any chunks, artifact kind, difficulty and service,
    [generate_content_with_gemini] returns (it never raises); its text is
    the concatenation, in chunk order, of one contribution per chunk, the
    response and a blank line on success, the marker with the message and
    a blank line on failure; every chunk is sent to the service whatever
    happened before; and after each call, and only then, progress is
    reported with value (i+1)/total. *)
Theorem generation_isolates_failures
    (ServiceState : Type)
    (generate_content : ServiceState -> string -> outcome * ServiceState)
    (text_chunks : list string) (g : generation_type) (d : difficulty)
    (s0 : ServiceState) :
  exists r,
    generate_content_with_gemini generate_content text_chunks g d s0 = Some r
    /\ full_response r
       = join_all (map contribution
                     (outcomes generate_content
                               (map (prompt_for g d) text_chunks) s0))
    /\ List.length
         (outcomes generate_content (map (prompt_for g d) text_chunks) s0)
       = List.length text_chunks
    /\ trace r
       = expected_trace (Pos.of_nat (List.length text_chunks)) 0
                        (map (prompt_for g d) text_chunks)
    /\ service r
       = final_state generate_content (map (prompt_for g d) text_chunks) s0.
Proof.
  unfold generate_content_with_gemini.
  assert (Hlen : List.length
                   (outcomes generate_content (map (prompt_for g d) text_chunks) s0)
                 = List.length text_chunks)
    by now rewrite outcomes_length, length_map.
  destruct text_chunks as [|c cs] eqn:Hc.
  - eexists. simpl. repeat split.
  - rewrite <- Hc in *. rewrite loop_runs by (subst; discriminate).
    eexists. split; [reflexivity|]. cbn [full_response service trace].
    repeat split. exact Hlen.
Qed.

(** C10: on an empty chunk sequence the function returns the empty text,
    the service is never called (its state is the initial one and the
    trace holds no call) and progress is never reported; the division that
    would raise for a zero total is not evaluated. *)
Theorem generation_of_no_chunks
    (ServiceState : Type)
    (generate_content : ServiceState -> string -> outcome * ServiceState)
    (g : generation_type) (d : difficulty) (s0 : ServiceState) :
  generate_content_with_gemini generate_content [] g d s0 = Some (mkRun "" s0 [])
  /\ forall i : nat,
       true_div (Z.of_nat i + 1) (Z.of_nat (List.length (@nil string))) = None.
Proof. split; reflexivity. Qed.

Example resilience_three_chunks :
  option_map (fun r => (full_response r, List.length (trace r), service r))
             (generate_content_with_gemini fails_on_second
                ["one"; "two"; "three"] summary Beginner 0%nat)
  = Some ("ok 1" ++ newline ++ newline
          ++ "Error processing a chunk: quota exceeded" ++ newline ++ newline
          ++ "ok 3" ++ newline ++ newline,
          6%nat, 3%nat).
Proof. vm_compute. reflexivity. Qed.

Example resilience_progress_values :
  option_map (fun r => filter (fun e => match e with Progress _ => true | _ => false end)
                              (trace r))
             (generate_content_with_gemini fails_on_second
                ["one"; "two"; "three"] summary Beginner 0%nat)
  = Some [Progress (1 # 3); Progress (2 # 3); Progress (3 # 3)].
Proof. vm_compute. reflexivity. Qed.

Example format_text_fills_slot :
  format_text (PROMPTS qa Advanced) "abc"
  = "Generate challenging questions that require critical thinking..."
    ++ newline ++ newline ++ "Text: " ++ triple_quote ++ "abc" ++ triple_quote.
Proof. vm_compute. reflexivity. Qed.

End PipelineFacts.

(* ================================================================== *)
(** * Facts about the flashcard viewer *)
(* ================================================================== *)

Module ViewerFacts.
Import Parser Viewer.

Local Open Scope Z_scope.

Lemma card_at_in_range (deck : list flashcard) (i : Z) :
  0 <= i < deck_length deck -> exists card, card_at deck i = Some card.
Proof.
  unfold card_at, deck_length. intros [Hlo Hhi].
  destruct (Z.ltb_spec i 0) as [Hneg|_]; [lia|].
  destruct (nth_error deck (Z.to_nat i)) as [card|] eqn:Hnth.
  - now exists card.
  - apply nth_error_None in Hnth. lia.
Qed.

Lemma showCard_index (deck : list flashcard) (i : Z) (v : view) :
  currentIndex (showCard deck i v) = currentIndex v.
Proof.
  unfold showCard. destruct (deck_length deck =? 0); [reflexivity|].
  destruct (card_at deck i); reflexivity.
Qed.

Lemma showCard_front_facing (deck : list flashcard) (i : Z) (v : view) :
  0 <= i < deck_length deck -> is_flipped (showCard deck i v) = false.
Proof.
  intros Hi. unfold showCard.
  destruct (Z.eqb_spec (deck_length deck) 0) as [H0|_]; [lia|].
  destruct (card_at_in_range deck i Hi) as (card & ->). reflexivity.
Qed.

Lemma on_next_index (deck : list flashcard) (v : view) :
  currentIndex (on_next deck v)
  = if currentIndex v <? deck_length deck - 1
    then currentIndex v + 1 else currentIndex v.
Proof.
  unfold on_next. destruct (currentIndex v <? deck_length deck - 1); [|reflexivity].
  cbv zeta. now rewrite showCard_index.
Qed.

Lemma on_prev_index (deck : list flashcard) (v : view) :
  currentIndex (on_prev deck v)
  = if 0 <? currentIndex v then currentIndex v - 1 else currentIndex v.
Proof.
  unfold on_prev. destruct (0 <? currentIndex v); [|reflexivity].
  cbv zeta. now rewrite showCard_index.
Qed.

(** Every listener keeps the index inside the deck. *)
Lemma handle_in_range (deck : list flashcard) (v : view) (e : user_event) :
  0 <= currentIndex v < deck_length deck ->
  0 <= currentIndex (listener deck v e) < deck_length deck.
Proof.
  intros Hv. destruct e; simpl.
  - exact Hv.
  - rewrite on_prev_index. destruct (Z.ltb_spec 0 (currentIndex v)); lia.
  - rewrite on_next_index.
    destruct (Z.ltb_spec (currentIndex v) (deck_length deck - 1)); lia.
Qed.

Lemma fold_in_range (deck : list flashcard) (events : list user_event) :
  forall v,
    0 <= currentIndex v < deck_length deck ->
    0 <= currentIndex (fold_left (listener deck) events v) < deck_length deck.
Proof.
  induction events as [|e es IH]; intros v Hv; [exact Hv|].
  simpl. apply IH, handle_in_range, Hv.
Qed.

Lemma script_start_index (deck : list flashcard) : currentIndex (script_start deck) = 0.
Proof. unfold script_start. now rewrite showCard_index. Qed.

Lemma deck_length_pos (deck : list flashcard) : deck <> [] -> 0 < deck_length deck.
Proof. destruct deck; [congruence|]. unfold deck_length. simpl. lia. Qed.

(** [n] presses of one button from any state. *)
Lemma presses_next (deck : list flashcard) (n : nat) :
  forall v,
    currentIndex (fold_left (listener deck) (repeat Next n) v)
    = Z.max (currentIndex v)
            (Z.min (currentIndex v + Z.of_nat n) (deck_length deck - 1)).
Proof.
  induction n as [|n IH]; intros v.
  - simpl. lia.
  - simpl repeat. simpl fold_left. rewrite IH, on_next_index.
    destruct (Z.ltb_spec (currentIndex v) (deck_length deck - 1)); lia.
Qed.

Lemma presses_prev (deck : list flashcard) (n : nat) :
  forall v,
    currentIndex (fold_left (listener deck) (repeat Previous n) v)
    = Z.min (currentIndex v) (Z.max (currentIndex v - Z.of_nat n) 0).
Proof.
  induction n as [|n IH]; intros v.
  - simpl. lia.
  - simpl repeat. simpl fold_left. rewrite IH, on_prev_index.
    destruct (Z.ltb_spec 0 (currentIndex v)); lia.
Qed.

(** The script, once it runs, on a non-empty deck. *)
Lemma script_navigation (deck : list flashcard) (Hdeck : deck <> []) :
  (currentIndex (script_start deck) = 0 /\ is_flipped (script_start deck) = false)
  /\ (forall events : list user_event,
         0 <= currentIndex (script_run deck events) < deck_length deck)
  /\ (forall v : view,
         0 <= currentIndex v < deck_length deck ->
         (currentIndex v < deck_length deck - 1 ->
            currentIndex (listener deck v Next) = currentIndex v + 1
            /\ is_flipped (listener deck v Next) = false)
         /\ (currentIndex v = deck_length deck - 1 -> listener deck v Next = v)
         /\ (0 < currentIndex v ->
               currentIndex (listener deck v Previous) = currentIndex v - 1
               /\ is_flipped (listener deck v Previous) = false)
         /\ (currentIndex v = 0 -> listener deck v Previous = v)
         /\ currentIndex (listener deck v Click) = currentIndex v)
  /\ (forall extra : nat,
         currentIndex
           (script_run deck (repeat Next (Z.to_nat (deck_length deck - 1) + extra)))
         = deck_length deck - 1)
  /\ currentIndex
       (script_run deck (repeat Next (Z.to_nat (deck_length deck - 1))
                         ++ repeat Previous (Z.to_nat (deck_length deck - 1))))
     = 0.
Proof.
  pose proof (deck_length_pos deck Hdeck) as Hpos.
  split; [|split; [|split; [|split]]].
  - split; [apply script_start_index|].
    unfold script_start. apply showCard_front_facing. lia.
  - intros events. unfold script_run. apply fold_in_range.
    rewrite script_start_index. lia.
  - intros v Hv. repeat split.
    + simpl. rewrite on_next_index.
      destruct (Z.ltb_spec (currentIndex v) (deck_length deck - 1)); lia.
    + simpl. unfold on_next.
      destruct (Z.ltb_spec (currentIndex v) (deck_length deck - 1)); [|lia].
      cbv zeta. apply showCard_front_facing. simpl. lia.
    + intros Hlast. simpl. unfold on_next.
      destruct (Z.ltb_spec (currentIndex v) (deck_length deck - 1)); [lia|reflexivity].
    + simpl. rewrite on_prev_index.
      destruct (Z.ltb_spec 0 (currentIndex v)); lia.
    + simpl. unfold on_prev.
      destruct (Z.ltb_spec 0 (currentIndex v)); [|lia].
      cbv zeta. apply showCard_front_facing. simpl. lia.
    + intros Hfirst. simpl. unfold on_prev.
      destruct (Z.ltb_spec 0 (currentIndex v)); [lia|reflexivity].
  - intros extra. unfold script_run. rewrite presses_next, script_start_index. lia.
  - unfold script_run.
    rewrite fold_left_app, presses_prev, presses_next, script_start_index.
    lia.
Qed.

(** ** The page *)

Lemma fold_handle_live (deck : list flashcard) (events : list user_event) :
  forall v,
    fold_left (handle deck) events (Live v)
    = Live (fold_left (listener deck) events v).
Proof.
  induction events as [|e es IH]; intros v; [reflexivity|].
  simpl. apply IH.
Qed.

Lemma fold_handle_static (deck : list flashcard) (events : list user_event) :
  fold_left (handle deck) events Static = Static.
Proof. induction events as [|e es IH]; [reflexivity | exact IH]. Qed.

Lemma run_live (deck : list flashcard) (events : list user_event) :
  script_runs deck = true -> run deck events = Live (script_run deck events).
Proof.
  intros H. unfold run, initial. rewrite H. apply fold_handle_live.
Qed.

Lemma run_static (deck : list flashcard) (events : list user_event) :
  script_runs deck = false -> run deck events = Static.
Proof.
  intros H. unfold run, initial. rewrite H. apply fold_handle_static.
Qed.

(** C7 (the code at the failing input): for the one-card deck whose term
    is the closing tag of a script element, the JSON text pasted into the
    script holds that tag as it is, the browser closes the script element
    inside the text, the script does not run, and whatever is clicked the
    page stays as the markup has it: there is no index and no
    navigation. *)
Theorem viewer_dead_on_closing_tag :
  json_dumps closing_tag_deck
  = "[{" ++ quoted "term" ++ ": " ++ quoted "</script>" ++ ", "
    ++ quoted "definition" ++ ": " ++ quoted "d" ++ "}]"
  /\ tokenize (script_head ++ "[{" ++ quoted "term" ++ ": " ++ quoted "</script>")
              Data
     = Closed
  /\ script_runs closing_tag_deck = false
  /\ forall events : list user_event, run closing_tag_deck events = Static.
Proof.
  split; [reflexivity|]. split; [vm_compute; reflexivity|].
  assert (H : script_runs closing_tag_deck = false) by (vm_compute; reflexivity).
  split; [exact H|]. intros events. now apply run_static.
Qed.



Example viewer_three_cards_run :
  run three_cards [Next; Click; Next; Next; Previous]
  = Live (mkView 1 false (Some "Gene") (Some "A unit of heredity") (Some (2, 3))
                 false false).
Proof. vm_compute. reflexivity. Qed.

Example json_dumps_escapes :
  json_dumps [mkCard ("a" ++ String Pipeline.dquote "b") ("x" ++ PyStr.newline ++ "<")]
  = "[{" ++ quoted "term" ++ ": "
    ++ quoted ("a\" ++ String Pipeline.dquote "b") ++ ", "
    ++ quoted "definition" ++ ": " ++ quoted "x\n<" ++ "}]".
Proof. vm_compute. reflexivity. Qed.

End ViewerFacts.

(* ================================================================== *)
(** * Facts about the flashcard parser *)
(* ================================================================== *)

Module ParserFacts.
Import PyStr PyStrFacts Parser.

(** ** White space and case *)

Lemma isspace_lower_char (c : ascii) : isspace (lower_char c) = isspace c.
Proof. destruct c as [[] [] [] [] [] [] [] []]; vm_compute; reflexivity. Qed.

Lemma length_lower (s : string) : length (lower s) = length s.
Proof. induction s as [|c s IH]; simpl; [reflexivity | now rewrite IH]. Qed.

Lemma lower_append (s t : string) : lower (s ++ t) = lower s ++ lower t.
Proof. induction s as [|c s IH]; simpl; [reflexivity | now rewrite IH]. Qed.

Lemma prefix_append (p r : string) : String.prefix p (p ++ r) = true.
Proof.
  induction p as [|c p IH]; simpl; [now destruct r|].
  destruct (ascii_dec c c); [exact IH | congruence].
Qed.

Lemma slice_from_append (p r : string) : slice_from (length p) (p ++ r) = r.
Proof. induction p as [|c p IH]; simpl; [now destruct r | exact IH]. Qed.

Lemma length_lstrip (s : string) : (length (lstrip s) <= length s)%nat.
Proof.
  induction s as [|c s IH]; simpl; [lia|].
  destruct (isspace c); simpl; lia.
Qed.

Lemma length_rstrip (s : string) : (length (rstrip s) <= length s)%nat.
Proof.
  induction s as [|c s IH]; simpl; [lia|].
  destruct (rstrip s); [destruct (isspace c)|]; simpl in *; lia.
Qed.

Lemma lstrip_full_length (s : string) :
  length (lstrip s) = length s -> lstrip s = s.
Proof.
  destruct s as [|c s]; simpl; [reflexivity|].
  destruct (isspace c); [|reflexivity].
  pose proof (length_lstrip s). lia.
Qed.

Lemma rstrip_full_length (s : string) :
  length (rstrip s) = length s -> rstrip s = s.
Proof.
  induction s as [|c s IH]; simpl; [reflexivity|].
  pose proof (length_rstrip s) as Hle.
  destruct (rstrip s) as [|d k] eqn:Hr.
  - destruct (isspace c); simpl; intros H; [lia|].
    destruct s; [reflexivity | simpl in H; lia].
  - simpl. intros H. rewrite IH; [reflexivity | simpl in *; lia].
Qed.

(** A string that [strip] leaves alone is left alone at both ends. *)
Lemma strip_fixed (s : string) :
  strip s = s -> lstrip s = s /\ rstrip s = s.
Proof.
  unfold strip. intros H.
  pose proof (length_lstrip s) as Hl.
  pose proof (length_rstrip (lstrip s)) as Hr.
  assert (Hlen : length (lstrip s) = length s).
  { rewrite H in Hr. lia. }
  apply lstrip_full_length in Hlen. rewrite Hlen in H. now split.
Qed.

Lemma append_not_empty_r (p x : string) : x <> "" -> p ++ x <> "".
Proof. destruct p; simpl; [auto | discriminate]. Qed.

(** Nothing is cut off the right end in front of a tail that keeps its
    own right end. *)
Lemma rstrip_append (p x : string) :
  x <> "" -> rstrip x = x -> rstrip (p ++ x) = p ++ x.
Proof.
  intros Hx Hr. induction p as [|c p IH]; simpl; [exact Hr|].
  rewrite IH. pose proof (append_not_empty_r p x Hx) as Hne.
  destruct (p ++ x); [congruence | reflexivity].
Qed.

Lemma lstrip_head (c : ascii) (s : string) :
  isspace c = false -> lstrip (String c s) = String c s.
Proof. intros H. simpl. now rewrite H. Qed.

(** ** Lines made of a keyword, a blank and a clean value *)

Lemma keyword_head (kw target : string) (c : ascii) (t : string) :
  lower kw = String c t -> isspace c = false ->
  exists k ks, kw = String k ks /\ isspace k = false.
Proof.
  destruct kw as [|k ks]; simpl; [discriminate|].
  intros H Hc. injection H as Hk _.
  exists k, ks. split; [reflexivity|].
  now rewrite <- isspace_lower_char, Hk.
Qed.

(** A line [kw x], with a blank between the two, for a keyword [kw] spelled
    in any case and a clean value [x]: stripping changes nothing, its lower
    form starts with the lower keyword, and the slice after the keyword
    strips to [x]. *)
Lemma keyword_line (kw low x : string) (c : ascii) (t : string) :
  lower kw = low -> low = String c t -> isspace c = false ->
  clean x ->
  strip (kw ++ " " ++ x) = kw ++ " " ++ x
  /\ startswith (lower (kw ++ " " ++ x)) low = true
  /\ strip (slice_from (length low) (kw ++ " " ++ x)) = x.
Proof.
  intros Hlow Hshape Hc (Hne & _ & Hstrip).
  destruct (strip_fixed x Hstrip) as [Hl Hr].
  assert (Hkw : exists k ks, kw = String k ks /\ isspace k = false).
  { apply (keyword_head kw low c t); congruence. }
  destruct Hkw as (k & ks & -> & Hk).
  repeat split.
  - unfold strip.
    assert (Hcons : String k ks ++ " " ++ x = String k (ks ++ " " ++ x))
      by reflexivity.
    rewrite Hcons, (lstrip_head k _ Hk), <- Hcons, <- append_assoc.
    now apply rstrip_append.
  - unfold startswith. rewrite lower_append, Hlow. apply prefix_append.
  - rewrite <- Hlow, length_lower, slice_from_append.
    unfold strip. simpl lstrip. change (isspace " ") with true. cbv iota.
    now rewrite Hl.
Qed.

Lemma clean_truthy (x : string) : clean x -> truthy x = true.
Proof. intros (Hne & _). now apply truthy_true_iff. Qed.

(** ** The loop *)

Lemma parse_lines_flush (text_lines : list string) :
  parse_lines text_lines = flush (fold_left parse_step text_lines (mkP [] None None)).
Proof. reflexivity. Qed.

Lemma step_term_line (st : pstate) (l : string) :
  is_term_line l = true ->
  parse_step st l
  = mkP (flush st) (Some (strip (slice_from 5 (strip l)))) None.
Proof. unfold is_term_line, parse_step. cbv zeta. now intros ->. Qed.

Lemma step_definition_line (st : pstate) (l : string) :
  is_definition_line l = true ->
  parse_step st l
  = if truthy_opt (pending_term st)
    then mkP (flashcards st) (pending_term st)
             (Some (strip (slice_from 11 (strip l))))
    else st.
Proof.
  unfold is_definition_line, is_term_line, parse_step. cbv zeta.
  intros H. apply andb_true_iff in H as [Ht Hd].
  apply negb_true_iff in Ht. now rewrite Ht, Hd.
Qed.

Lemma step_other_line (st : pstate) (l : string) :
  is_term_line l = false -> is_definition_line l = false ->
  parse_step st l = st.
Proof.
  unfold is_definition_line, is_term_line, parse_step. cbv zeta.
  intros Ht Hd. rewrite Ht in Hd |- *. simpl in Hd. now rewrite Hd.
Qed.

(** ** C6: emitted records are complete *)

Lemma save_card_complete (cards : list flashcard) (t d : option string) :
  Forall complete cards -> Forall complete (save_card cards t d).
Proof.
  intros H. unfold save_card.
  destruct t as [t|]; [|exact H]. destruct d as [d|]; [|exact H].
  destruct (truthy t) eqn:Ht; [|exact H].
  destruct (truthy d) eqn:Hd; [|exact H].
  simpl. apply Forall_app. split; [exact H|].
  constructor; [|constructor].
  split; simpl; now apply truthy_true_iff.
Qed.

Lemma parse_step_complete (st : pstate) (l : string) :
  Forall complete (flashcards st) ->
  Forall complete (flashcards (parse_step st l)).
Proof.
  intros H. unfold parse_step. cbv zeta.
  destruct (startswith (lower (strip l)) "term:").
  - simpl. now apply save_card_complete.
  - destruct (startswith (lower (strip l)) "definition:"); [|exact H].
    destruct (truthy_opt (pending_term st)); exact H.
Qed.

Lemma fold_complete (text_lines : list string) :
  forall st,
    Forall complete (flashcards st) ->
    Forall complete (flashcards (fold_left parse_step text_lines st)).
Proof.
  induction text_lines as [|l ls IH]; intros st H; [exact H|].
  simpl. now apply IH, parse_step_complete.
Qed.

Lemma parse_lines_complete (text_lines : list string) :
  Forall complete (parse_lines text_lines).
Proof.
  unfold parse_lines. cbv zeta.
  apply save_card_complete, fold_complete. constructor.
Qed.

(** C6: whatever the raw text and whatever the markup pass makes of it,
    every record returned by [parse_flashcards] has a non-empty term and a
    non-empty definition. *)
Theorem flashcards_have_both_fields
    (get_text : string -> string) (raw_text : string) :
  Forall (fun card => term card <> "" /\ definition card <> "")
         (parse_flashcards get_text raw_text).
Proof. unfold parse_flashcards. apply parse_lines_complete. Qed.

(** ** C4: the round trip *)

Lemma term_keyword_line (kw x : string) :
  lower kw = "term:" -> clean x ->
  is_term_line (kw ++ " " ++ x) = true
  /\ strip (slice_from 5 (strip (kw ++ " " ++ x))) = x.
Proof.
  intros Hkw Hx.
  destruct (keyword_line kw "term:" x "t" "erm:" Hkw eq_refl eq_refl Hx)
    as (Hs & Hp & Hv).
  unfold is_term_line. rewrite Hs. split; [exact Hp | exact Hv].
Qed.

Lemma definition_keyword_line (kw y : string) :
  lower kw = "definition:" -> clean y ->
  is_definition_line (kw ++ " " ++ y) = true
  /\ strip (slice_from 11 (strip (kw ++ " " ++ y))) = y.
Proof.
  intros Hkw Hy.
  destruct (keyword_line kw "definition:" y "d" "efinition:" Hkw eq_refl eq_refl Hy)
    as (Hs & Hp & Hv).
  unfold is_definition_line, is_term_line. rewrite Hs. split; [|exact Hv].
  rewrite Hp, andb_true_r. apply negb_true_iff.
  unfold startswith. rewrite lower_append, Hkw. reflexivity.
Qed.

(** A term line and its definition line, with the keywords in any case,
    leave the pair pending and save what was pending before. *)
Lemma pair_of_lines (st : pstate) (kw1 kw2 x y : string) :
  lower kw1 = "term:" -> lower kw2 = "definition:" ->
  clean x -> clean y ->
  fold_left parse_step [kw1 ++ " " ++ x; kw2 ++ " " ++ y] st
  = mkP (flush st) (Some x) (Some y).
Proof.
  intros H1 H2 Hx Hy.
  destruct (term_keyword_line kw1 x H1 Hx) as (Ht & Htv).
  destruct (definition_keyword_line kw2 y H2 Hy) as (Hd & Hdv).
  cbn [fold_left].
  rewrite (step_term_line st _ Ht), Htv.
  rewrite (step_definition_line _ _ Hd), Hdv.
  simpl. now rewrite (clean_truthy x Hx).
Qed.

Lemma fold_card_lines (pairs : list (string * string)) :
  Forall clean_pair pairs ->
  forall st,
    flush (fold_left parse_step (card_lines pairs) st)
    = (flush st ++ map card_of pairs)%list.
Proof.
  induction 1 as [|[x y] rest [Hx Hy] _ IH]; intros st.
  - simpl. now rewrite app_nil_r.
  - change (card_lines ((x, y) :: rest))
      with ([("Term:" ++ " " ++ x)%string; ("Definition:" ++ " " ++ y)%string]
            ++ card_lines rest)%list.
    rewrite fold_left_app, (pair_of_lines st "Term:" "Definition:" x y)
      by (reflexivity || assumption).
    rewrite IH. unfold flush at 1. simpl in Hx, Hy |- *.
    rewrite (clean_truthy x Hx), (clean_truthy y Hy). simpl.
    now rewrite <- app_assoc.
Qed.

Lemma card_lines_one_line (pairs : list (string * string)) :
  Forall clean_pair pairs ->
  Forall (fun l => contains nl l = false) (card_lines pairs).
Proof.
  induction 1 as [|[x y] rest [(_ & Hx & _) (_ & Hy & _)] _ IH]; simpl.
  - constructor.
  - constructor; [exact Hx|]. constructor; [exact Hy | exact IH].
Qed.

Lemma card_lines_right_end (pairs : list (string * string)) :
  Forall clean_pair pairs ->
  Forall (fun l => l <> "" /\ rstrip l = l) (card_lines pairs).
Proof.
  induction 1 as [|[x y] rest [(Hx & _ & Hsx) (Hy & _ & Hsy)] _ IH]; simpl.
  - constructor.
  - destruct (strip_fixed _ Hsx) as [_ Hrx].
    destruct (strip_fixed _ Hsy) as [_ Hry].
    simpl in Hx, Hy, Hrx, Hry.
    constructor; [|constructor; [|exact IH]].
    + split; [discriminate|]. now apply (rstrip_append "Term: ").
    + split; [discriminate|]. now apply (rstrip_append "Definition: ").
Qed.

Lemma rstrip_concat (lines : list string) :
  lines <> [] ->
  Forall (fun l => l <> "" /\ rstrip l = l) lines ->
  String.concat newline lines <> ""
  /\ rstrip (String.concat newline lines) = String.concat newline lines.
Proof.
  induction lines as [|l ls IH]; [congruence|]. intros _ Hall.
  inversion Hall as [|? ? [Hl Hr] Hls]; subst.
  destruct ls as [|l' ls]; [now split|].
  destruct IH as [Hne Hrs]; [discriminate | exact Hls |].
  change (String.concat newline (l :: l' :: ls))
    with (l ++ newline ++ String.concat newline (l' :: ls)).
  remember (String.concat newline (l' :: ls)) as tail.
  split.
  - apply append_not_empty_r. discriminate.
  - rewrite <- append_assoc. now apply rstrip_append.
Qed.

Lemma strip_flashcard_text (pairs : list (string * string)) :
  Forall clean_pair pairs ->
  strip (flashcard_text pairs) = flashcard_text pairs.
Proof.
  intros Hall. destruct pairs as [|[x y] rest]; [reflexivity|].
  unfold strip, flashcard_text.
  destruct (rstrip_concat (card_lines ((x, y) :: rest))) as [_ Hr].
  { discriminate. }
  { now apply card_lines_right_end. }
  assert (Hl : lstrip (String.concat newline (card_lines ((x, y) :: rest)))
               = String.concat newline (card_lines ((x, y) :: rest))).
  { change (card_lines ((x, y) :: rest))
      with (("Term: " ++ x) :: ("Definition: " ++ y) :: card_lines rest).
    change (String.concat newline
              (("Term: " ++ x) :: ("Definition: " ++ y) :: card_lines rest))
      with (("Term: " ++ x) ++ newline
            ++ String.concat newline (("Definition: " ++ y) :: card_lines rest)).
    remember (String.concat newline (("Definition: " ++ y) :: card_lines rest)) as tail.
    reflexivity. }
  now rewrite Hl.
Qed.

(** C4 (as amended): for pairs whose values are non-empty, on one line and
    without white space at either end, and whose text the markup pass
    returns unchanged, [parse_flashcards] on the alternating Term and
    Definition lines returns exactly one record per pair, in input order,
    with exactly those values. *)
Theorem flashcards_round_trip
    (get_text : string -> string) (pairs : list (string * string)) :
  Forall (fun xy => clean (fst xy) /\ clean (snd xy)) pairs ->
  markup_free get_text (flashcard_text pairs) ->
  parse_flashcards get_text (flashcard_text pairs) = map card_of pairs.
Proof.
  intros Hall Hfree.
  unfold parse_flashcards, text_lines_of. rewrite Hfree.
  rewrite (strip_flashcard_text pairs Hall).
  destruct pairs as [|xy rest] eqn:Hp; [reflexivity|]. rewrite <- Hp in *.
  unfold flashcard_text.
  rewrite split_concat;
    [| subst; destruct xy; discriminate | now apply card_lines_one_line].
  rewrite parse_lines_flush. now rewrite (fold_card_lines pairs Hall).
Qed.

(** The theorem at two pairs, with the stripper that only unwraps. *)
Lemma flashcards_round_trip_witness :
  Forall (fun xy => clean (fst xy) /\ clean (snd xy))
         [("Cell", "The unit of life"); ("Gene", "A unit of heredity")]
  /\ markup_free unwrap_div
       (flashcard_text [("Cell", "The unit of life"); ("Gene", "A unit of heredity")])
  /\ parse_flashcards unwrap_div
       (flashcard_text [("Cell", "The unit of life"); ("Gene", "A unit of heredity")])
     = [mkCard "Cell" "The unit of life"; mkCard "Gene" "A unit of heredity"].
Proof.
  assert (Hclean : Forall (fun xy => clean (fst xy) /\ clean (snd xy))
                     [("Cell", "The unit of life"); ("Gene", "A unit of heredity")]).
  { repeat constructor; simpl; discriminate. }
  assert (Hfree : markup_free unwrap_div
                    (flashcard_text [("Cell", "The unit of life");
                                     ("Gene", "A unit of heredity")])).
  { reflexivity. }
  split; [exact Hclean|]. split; [exact Hfree|].
  exact (flashcards_round_trip unwrap_div _ Hclean Hfree).
Defined.

(** C4 (as stated) fails: the pair with the empty term, written as the
    lines [Term: ] and [Definition: d], gives no record at all, and the
    pair whose term ends in a blank gives a record with another term. *)
Lemma round_trip_as_stated_fails :
  (flashcard_text [("", "d")] = "Term: " ++ newline ++ "Definition: d"
   /\ markup_free unwrap_div (flashcard_text [("", "d")])
   /\ parse_flashcards unwrap_div (flashcard_text [("", "d")]) = []
   /\ map card_of [("", "d")] = [mkCard "" "d"])
  /\ (markup_free unwrap_div (flashcard_text [("DNA ", "d")])
      /\ parse_flashcards unwrap_div (flashcard_text [("DNA ", "d")])
         = [mkCard "DNA" "d"]
      /\ map card_of [("DNA ", "d")] = [mkCard "DNA " "d"]).
Proof. repeat split. Qed.

(** ** C5: unpaired lines *)

Lemma step_without_term (st : pstate) (l : string) :
  is_term_line l = false -> truthy_opt (pending_term st) = false ->
  parse_step st l = st.
Proof.
  intros Ht Hp. destruct (is_definition_line l) eqn:Hd.
  - now rewrite (step_definition_line st l Hd), Hp.
  - now apply step_other_line.
Qed.

Lemma fold_before_first_term (pre : list string) :
  Forall (fun l => is_term_line l = false) pre ->
  fold_left parse_step pre (mkP [] None None) = mkP [] None None.
Proof.
  induction 1 as [|l ls Hl _ IH]; [reflexivity|].
  simpl fold_left.
  now rewrite (step_without_term (mkP [] None None) l Hl eq_refl).
Qed.

Lemma fold_other_lines (others : list string) (st : pstate) :
  Forall (fun o => is_term_line o = false /\ is_definition_line o = false) others ->
  fold_left parse_step others st = st.
Proof.
  induction 1 as [|o os [Ht Hd] _ IH]; [reflexivity|].
  simpl fold_left. now rewrite (step_other_line st o Ht Hd).
Qed.

(** A term line followed by no definition line leaves no trace once the
    next term line, or the end of the input, is reached. *)
Lemma lone_term_dropped (st : pstate) (l : string) (others after : list string) :
  is_term_line l = true ->
  Forall (fun o => is_term_line o = false /\ is_definition_line o = false) others ->
  after = [] \/ is_term_line (hd "" after) = true ->
  flush (fold_left parse_step (l :: others ++ after) st)
  = flush (fold_left parse_step after st).
Proof.
  intros Hl Hothers Hafter.
  simpl fold_left. rewrite fold_left_app, (fold_other_lines others _ Hothers).
  rewrite (step_term_line st l Hl).
  destruct after as [|l' after'].
  - reflexivity.
  - destruct Hafter as [Hnil|Hterm]; [discriminate|]. simpl in Hterm.
    simpl fold_left. now rewrite !(step_term_line _ l' Hterm).
Qed.

(** C5: for every raw text, lines in front of the first term line, so any
    definition line with no term before it, add nothing to the result; a
    term line followed by no definition line before the next term line or
    the end of the input adds nothing either; and the keywords match in
    any case while the value is returned in the case it was written. *)
Theorem unpaired_lines_dropped
    (get_text : string -> string) (raw_text : string) :
  (forall pre rest : list string,
      text_lines_of get_text raw_text = (pre ++ rest)%list ->
      Forall (fun l => is_term_line l = false) pre ->
      parse_flashcards get_text raw_text = parse_lines rest)
  /\ (forall (before : list string) (l : string) (others after : list string),
        text_lines_of get_text raw_text = (before ++ l :: others ++ after)%list ->
        is_term_line l = true ->
        Forall (fun o => is_term_line o = false /\ is_definition_line o = false)
               others ->
        after = [] \/ is_term_line (hd "" after) = true ->
        parse_flashcards get_text raw_text = parse_lines (before ++ after))
  /\ (forall kw1 kw2 x y : string,
        lower kw1 = "term:" -> lower kw2 = "definition:" ->
        clean x -> clean y ->
        parse_lines [kw1 ++ " " ++ x; kw2 ++ " " ++ y] = [mkCard x y]).
Proof.
  split; [|split].
  - intros pre rest Hlines Hpre. unfold parse_flashcards. rewrite Hlines.
    rewrite !parse_lines_flush, fold_left_app.
    now rewrite (fold_before_first_term pre Hpre).
  - intros before l others after Hlines Hl Hothers Hafter.
    unfold parse_flashcards. rewrite Hlines.
    rewrite !parse_lines_flush, !fold_left_app.
    now apply lone_term_dropped.
  - intros kw1 kw2 x y H1 H2 Hx Hy.
    rewrite parse_lines_flush, (pair_of_lines _ kw1 kw2 x y H1 H2 Hx Hy).
    unfold flush. simpl.
    now rewrite (clean_truthy x Hx), (clean_truthy y Hy).
Qed.

(** The theorem at [sample_raw], with the stripper that only unwraps. *)
Lemma unpaired_lines_dropped_witness :
  parse_flashcards unwrap_div sample_raw
  = parse_lines ["Term: Cell"; "Definition: The unit of life"; "Term: lonely"]
  /\ parse_flashcards unwrap_div sample_raw
     = parse_lines ["Definition: orphan"; "Term: Cell";
                    "Definition: The unit of life"]
  /\ parse_lines ["tErM: DNA"; "DEFINITION: Acid"] = [mkCard "DNA" "Acid"].
Proof.
  destruct (unpaired_lines_dropped unwrap_div sample_raw) as (Ha & Hb & Hc).
  split; [|split].
  - apply (Ha ["Definition: orphan"]); [reflexivity|].
    repeat constructor.
  - apply (Hb ["Definition: orphan"; "Term: Cell"; "Definition: The unit of life"]
              "Term: lonely" [] []);
      [reflexivity | reflexivity | constructor | now left].
  - apply (Hc "tErM:" "DEFINITION:" "DNA" "Acid");
      try reflexivity; repeat split; discriminate.
Defined.

Example parse_sample_raw :
  parse_flashcards unwrap_div sample_raw = [mkCard "Cell" "The unit of life"].
Proof. reflexivity. Qed.

Example parse_empty_text : parse_flashcards unwrap_div "" = [].
Proof. reflexivity. Qed.

Example parse_last_definition_wins :
  parse_lines ["Term: A"; "Definition: first"; "definition: second"; "note"]
  = [mkCard "A" "second"].
Proof. reflexivity. Qed.

End ParserFacts.

(* ================================================================== *)
(** * Further facts about the chunker *)
(* ================================================================== *)

Module ChunkerMore.
Import PyStr PyStrFacts Chunker ChunkerFacts ParserFacts Notions.

Lemma ends_with_newline_not_empty (s : string) :
  ends_with_newline s -> s <> "".
Proof. intros (body & ->). apply append_not_empty_r. discriminate. Qed.

(** Once the accumulator ends in a newline, every chunk emitted from then
    on does, and so does the accumulator at the end. *)
Lemma loop_emits_lines (chunk_size : Z) (paragraphs : list string) :
  forall (cs : list string) (cur : string),
    ends_with_newline cur ->
    exists emitted cur',
      fold_left (chunk_step chunk_size) paragraphs (mkAcc cs cur)
      = mkAcc (cs ++ emitted)%list cur'
      /\ Forall ends_with_newline emitted
      /\ ends_with_newline cur'.
Proof.
  induction paragraphs as [|p ps IH]; intros cs cur Hcur.
  - exists [], cur. simpl. rewrite app_nil_r. auto.
  - simpl fold_left. unfold chunk_step at 2. simpl chunks. simpl current_chunk.
    destruct (_ <? _)%Z.
    + apply IH. destruct Hcur as (body & ->).
      exists ((body ++ newline) ++ p). now rewrite !append_assoc.
    + destruct (IH (cs ++ [cur])%list (p ++ newline)) as (em & cur' & Hf & Hem & Hc).
      { now exists p. }
      exists (cur :: em), cur'. rewrite Hf, <- app_assoc. simpl. auto.
Qed.

(** The first iteration, from the empty accumulator. *)
Lemma first_step (chunk_size : Z) (p : string) :
  chunk_step chunk_size (mkAcc [] "") p
  = if (chunk_size <=? Z.of_nat (length p) + 1)%Z
    then mkAcc [""] (p ++ newline)
    else mkAcc [] (p ++ newline).
Proof.
  unfold chunk_step. simpl chunks. simpl current_chunk. simpl length.
  destruct (Z.ltb_spec (Z.of_nat 0 + Z.of_nat (length p) + 1) chunk_size);
    destruct (Z.leb_spec chunk_size (Z.of_nat (length p) + 1));
    try reflexivity; lia.
Qed.

(** X1: [chunk_text] returns a first chunk and possibly more; every chunk
    after the first ends in a newline (so it is not empty); the first is
    either empty or ends in a newline, and it is empty exactly when the
    first paragraph with its newline reaches [chunk_size]. *)
Theorem only_first_chunk_can_be_empty (text : string) (chunk_size : Z) :
  exists first rest,
    chunk_text text chunk_size = first :: rest
    /\ Forall ends_with_newline rest
    /\ (first = "" \/ ends_with_newline first)
    /\ (first = ""
        <-> (chunk_size <= Z.of_nat (length (hd "" (split nl text))) + 1)%Z).
Proof.
  unfold chunk_text. cbv zeta.
  pose proof (split_not_nil nl text) as Hnn.
  destruct (split nl text) as [|p ps]; [congruence|]. clear Hnn.
  simpl fold_left. rewrite first_step. simpl hd.
  destruct (Z.leb_spec chunk_size (Z.of_nat (length p) + 1)) as [Hge|Hlt].
  - destruct (loop_emits_lines chunk_size ps [""] (p ++ newline))
      as (em & cur & -> & Hem & Hcur); [now exists p|].
    simpl chunks. simpl current_chunk.
    rewrite (proj2 (truthy_true_iff cur) (ends_with_newline_not_empty _ Hcur)).
    exists "", (em ++ [cur])%list. simpl. repeat split; auto.
    apply Forall_app. split; auto.
  - destruct (loop_emits_lines chunk_size ps [] (p ++ newline))
      as (em & cur & -> & Hem & Hcur); [now exists p|].
    simpl chunks. simpl current_chunk.
    rewrite (proj2 (truthy_true_iff cur) (ends_with_newline_not_empty _ Hcur)).
    assert (Hall : Forall ends_with_newline (em ++ [cur])%list).
    { apply Forall_app. split; auto. }
    simpl app at 1.
    destruct (em ++ [cur])%list as [|c cs] eqn:Hlist.
    { destruct em; discriminate. }
    inversion Hall as [|? ? Hc Hcs]; subst.
    exists c, cs. repeat split; auto.
    + intros ->. apply ends_with_newline_not_empty in Hc. congruence.
    + lia.
Qed.

(** While everything still fits, the loop only appends. *)
Lemma loop_all_fit (chunk_size : Z) (paragraphs : list string) :
  forall (cs : list string) (cur : string),
    (Z.of_nat (length cur) + Z.of_nat (length (render paragraphs)) < chunk_size)%Z ->
    fold_left (chunk_step chunk_size) paragraphs (mkAcc cs cur)
    = mkAcc cs (cur ++ render paragraphs).
Proof.
  induction paragraphs as [|p ps IH]; intros cs cur Hfit.
  - simpl. now rewrite append_nil_r.
  - change (render (p :: ps)) with ((p ++ newline) ++ render ps) in Hfit |- *.
    rewrite !length_append in Hfit. simpl length in Hfit.
    simpl fold_left. unfold chunk_step at 2. simpl chunks. simpl current_chunk.
    destruct (Z.ltb_spec (Z.of_nat (length cur) + Z.of_nat (length p) + 1) chunk_size)
      as [_|Hge]; [|lia].
    rewrite IH.
    + now rewrite !append_assoc.
    + rewrite !length_append. simpl length. lia.
Qed.

(** X2: a text that with one more character stays below [chunk_size] is
    returned as one chunk, the text followed by a newline. *)
Theorem short_text_is_one_chunk (text : string) (chunk_size : Z) :
  (Z.of_nat (length text) + 1 < chunk_size)%Z ->
  chunk_text text chunk_size = [text ++ newline].
Proof.
  intros Hfit. unfold chunk_text. cbv zeta.
  rewrite loop_all_fit.
  - simpl chunks. simpl current_chunk. rewrite render_split.
    now rewrite (proj2 (truthy_true_iff _)
                   (append_not_empty_r text newline ltac:(discriminate))).
  - rewrite render_split, length_append. simpl length. lia.
Qed.

Lemma short_text_is_one_chunk_witness :
  (Z.of_nat (length ("Cells divide." ++ newline ++ "Genes mutate.")) + 1 < 3000)%Z
  /\ chunk_text ("Cells divide." ++ newline ++ "Genes mutate.") 3000
     = [("Cells divide." ++ newline ++ "Genes mutate.") ++ newline].
Proof.
  assert (H : (Z.of_nat (length ("Cells divide." ++ newline ++ "Genes mutate.")) + 1
               < 3000)%Z) by (vm_compute; reflexivity).
  split; [exact H|].
  exact (short_text_is_one_chunk _ 3000 H).
Defined.

Lemma loop_chunk_count (chunk_size : Z) (paragraphs : list string) :
  forall a : acc,
    (List.length (chunks (fold_left (chunk_step chunk_size) paragraphs a))
     <= List.length (chunks a) + List.length paragraphs)%nat.
Proof.
  induction paragraphs as [|p ps IH]; intros a; simpl; [lia|].
  specialize (IH (chunk_step chunk_size a p)).
  assert (List.length (chunks (chunk_step chunk_size a p))
          <= S (List.length (chunks a)))%nat.
  { unfold chunk_step. destruct (_ <? _)%Z; simpl; [lia|].
    rewrite length_app. simpl. lia. }
  lia.
Qed.

(** X4: [chunk_text] returns at most one chunk per line of the text (per
    element of [text.split] on the line feed), plus one. *)
Theorem chunk_count_bound (text : string) (chunk_size : Z) :
  (1 <= List.length (chunk_text text chunk_size)
   <= List.length (split nl text) + 1)%nat.
Proof.
  split.
  - destruct (chunk_text_groups text chunk_size) as (d & o & _ & _ & -> & _).
    rewrite length_map, length_app. simpl. lia.
  - unfold chunk_text. cbv zeta.
    pose proof (loop_chunk_count chunk_size (split nl text) (mkAcc [] "")) as H.
    simpl in H. destruct (truthy _); [rewrite length_app; simpl|]; lia.
Qed.

Lemma loop_chunks_grow (chunk_size : Z) (paragraphs : list string) :
  forall a : acc,
    (List.length (chunks a)
     <= List.length (chunks (fold_left (chunk_step chunk_size) paragraphs a)))%nat.
Proof.
  induction paragraphs as [|p ps IH]; intros a; simpl; [lia|].
  specialize (IH (chunk_step chunk_size a p)).
  assert (List.length (chunks a)
          <= List.length (chunks (chunk_step chunk_size a p)))%nat.
  { unfold chunk_step. destruct (_ <? _)%Z; simpl; [lia|].
    rewrite length_app. simpl. lia. }
  lia.
Qed.

(** A loop that emits nothing had room for every paragraph. *)
Lemma loop_without_emit (chunk_size : Z) (paragraphs : list string) :
  forall a : acc,
    List.length (chunks (fold_left (chunk_step chunk_size) paragraphs a))
    = List.length (chunks a) ->
    paragraphs = []
    \/ (Z.of_nat (length (current_chunk a))
        + Z.of_nat (length (render paragraphs)) < chunk_size)%Z.
Proof.
  induction paragraphs as [|p ps IH]; intros a Hsame; [now left|]. right.
  simpl fold_left in Hsame.
  pose proof (loop_chunks_grow chunk_size ps (chunk_step chunk_size a p)) as Hgrow.
  change (render (p :: ps)) with ((p ++ newline) ++ render ps).
  rewrite !length_append. simpl length.
  unfold chunk_step in Hsame, Hgrow.
  destruct (Z.ltb_spec
              (Z.of_nat (length (current_chunk a)) + Z.of_nat (length p) + 1)
              chunk_size) as [Hlt|Hge].
  - destruct (IH _ Hsame) as [->|Hfit].
    + change (render []) with "". simpl length. lia.
    + simpl current_chunk in Hfit. rewrite !length_append in Hfit.
      simpl length in Hfit. lia.
  - simpl chunks in Hsame, Hgrow. rewrite length_app in Hgrow. simpl in Hgrow. lia.
Qed.

Lemma one_chunk_iff (text : string) (chunk_size : Z) :
  List.length (chunk_text text chunk_size) = 1%nat
  <-> (Z.of_nat (length text) + 1 < chunk_size)%Z.
Proof.
  split.
  - unfold chunk_text. cbv zeta. intros Hone.
    pose proof (loop_without_emit chunk_size (split nl text) (mkAcc [] "")) as Hfit.
    pose proof (render_split text) as Hr.
    pose proof (split_not_nil nl text) as Hnn.
    destruct (split nl text) as [|p ps] eqn:Hsplit; [congruence|].
    rewrite <- Hsplit in *. clear Hnn.
    assert (Hcur : truthy (current_chunk
                             (fold_left (chunk_step chunk_size) (split nl text)
                                        (mkAcc [] ""))) = true).
    { rewrite Hsplit. simpl fold_left. rewrite first_step.
      destruct (chunk_size <=? _)%Z.
      - destruct (loop_emits_lines chunk_size ps [""] (p ++ newline))
          as (em & cur & -> & _ & Hc); [now exists p|].
        apply truthy_true_iff. now apply ends_with_newline_not_empty.
      - destruct (loop_emits_lines chunk_size ps [] (p ++ newline))
          as (em & cur & -> & _ & Hc); [now exists p|].
        apply truthy_true_iff. now apply ends_with_newline_not_empty. }
    rewrite Hcur, length_app in Hone. simpl in Hone.
    destruct Hfit as [Hnil|Hfit]; [simpl; lia | congruence |].
    rewrite Hr, length_append in Hfit. simpl in Hfit. lia.
  - intros Hfit. unfold chunk_text. cbv zeta.
    rewrite loop_all_fit.
    + simpl chunks. simpl current_chunk. rewrite render_split.
      now rewrite (proj2 (truthy_true_iff _)
                     (append_not_empty_r text newline ltac:(discriminate))).
    + rewrite render_split, length_append. simpl length. lia.
Qed.

(** X3: [chunk_text] returns exactly one chunk if and only if the text
    with one more character stays below [chunk_size]; it never returns
    the empty list, so any longer text gives at least two chunks. *)
Theorem one_chunk_iff_text_fits (text : string) (chunk_size : Z) :
  (List.length (chunk_text text chunk_size) = 1%nat
   <-> (Z.of_nat (length text) + 1 < chunk_size)%Z)
  /\ (1 <= List.length (chunk_text text chunk_size))%nat
  /\ ((chunk_size <= Z.of_nat (length text) + 1)%Z ->
      (2 <= List.length (chunk_text text chunk_size))%nat).
Proof.
  pose proof (one_chunk_iff text chunk_size) as Hiff.
  assert (Hpos : (1 <= List.length (chunk_text text chunk_size))%nat).
  { destruct (chunk_text_groups text chunk_size) as (d & o & _ & _ & -> & _).
    rewrite length_map, length_app. simpl. lia. }
  split; [exact Hiff|]. split; [exact Hpos|].
  intros Hbig.
  destruct (Nat.eq_dec (List.length (chunk_text text chunk_size)) 1) as [H1|H1].
  - apply Hiff in H1. lia.
  - lia.
Qed.

End ChunkerMore.

(* ================================================================== *)
(** * Further facts about the generation pipeline *)
(* ================================================================== *)

Module PipelineMore.
Import PyStr PyStrFacts Pipeline PipelineFacts Notions.

(** ** Filling the template *)

Lemma no_field_here (c : ascii) (s : string) :
  Ascii.eqb c lbrace = false -> String.prefix "{text}" (String c s) = false.
Proof.
  intros H. cbn [String.prefix].
  destruct (ascii_dec "{" c) as [<-|_]; [discriminate H | reflexivity].
Qed.

Lemma format_no_field (s chunk : string) :
  contains lbrace s = false -> format_from 0 s chunk = s.
Proof.
  induction s as [|c s IH]; [reflexivity|].
  simpl contains. intros H. apply orb_false_iff in H as [Hc Hs].
  cbn [format_from]. rewrite (no_field_here c s Hc).
  now rewrite (IH Hs).
Qed.

Lemma format_one_field (before after chunk : string) :
  contains lbrace before = false -> contains lbrace after = false ->
  format_text (before ++ "{text}" ++ after) chunk = before ++ chunk ++ after.
Proof.
  unfold format_text. intros Hb Ha.
  induction before as [|c s IH].
  - change ("" ++ "{text}" ++ after) with (String lbrace ("text}" ++ after)).
    cbn [format_from].
    change (String lbrace ("text}" ++ after)) with ("{text}" ++ after).
    rewrite ParserFacts.prefix_append. simpl.
    now rewrite (format_no_field after chunk Ha).
  - simpl contains in Hb. apply orb_false_iff in Hb as [Hc Hs].
    change (String c s ++ "{text}" ++ after)
      with (String c (s ++ "{text}" ++ after)).
    cbn [format_from]. rewrite (no_field_here c _ Hc).
    now rewrite (IH Hs).
Qed.

Lemma format_instruction (instruction chunk : string) :
  contains lbrace instruction = false ->
  format_text (instruction ++ text_slot) chunk
  = instruction ++ slot_head ++ chunk ++ triple_quote.
Proof.
  intros H.
  replace (instruction ++ text_slot)
    with ((instruction ++ slot_head) ++ "{text}" ++ triple_quote).
  - rewrite format_one_field; [now rewrite append_assoc | | reflexivity].
    now rewrite contains_append, H.
  - now rewrite append_assoc.
Qed.

(** X5: for every artifact kind and difficulty the template is an
    instruction followed by the text slot, and the prompt for a chunk is
    that instruction, a blank line, the label [Text:] and the chunk itself
    between triple quotes, whatever characters the chunk holds. *)
Theorem prompt_holds_chunk_verbatim (g : generation_type) (d : difficulty) :
  exists instruction,
    PROMPTS g d = instruction ++ text_slot
    /\ forall chunk : string,
         prompt_for g d chunk
         = instruction ++ newline ++ newline ++ "Text: " ++ triple_quote
           ++ chunk ++ triple_quote.
Proof.
  unfold prompt_for.
  destruct g, d; eexists; (split; [reflexivity|]); intros chunk;
    unfold PROMPTS; rewrite format_instruction by reflexivity;
    unfold slot_head; now rewrite !append_assoc.
Qed.

Lemma append_cancel_l (p s t : string) : p ++ s = p ++ t -> s = t.
Proof.
  induction p as [|c p IH]; simpl; [auto|].
  intros H. injection H as H. auto.
Qed.

Lemma append_cancel_r (s t q : string) : s ++ q = t ++ q -> s = t.
Proof.
  revert t. induction s as [|c s IH]; intros t H.
  - destruct t as [|c' t]; [reflexivity|].
    apply (f_equal length) in H. rewrite !length_append in H. simpl in H. lia.
  - destruct t as [|c' t].
    + apply (f_equal length) in H. rewrite !length_append in H. simpl in H. lia.
    + simpl in H. injection H as -> H. f_equal. auto.
Qed.

(** X6: two different chunks never get the same prompt. *)
Theorem prompts_tell_chunks_apart
    (g : generation_type) (d : difficulty) (chunk1 chunk2 : string) :
  chunk1 <> chunk2 -> prompt_for g d chunk1 <> prompt_for g d chunk2.
Proof.
  intros Hne Heq. apply Hne. unfold prompt_for in Heq.
  destruct g, d; unfold PROMPTS in Heq;
    rewrite !format_instruction in Heq by reflexivity;
    apply append_cancel_l, append_cancel_l, append_cancel_r in Heq;
    exact Heq.
Qed.

Lemma prompts_tell_chunks_apart_witness :
  "Cells divide." <> "Genes mutate."
  /\ prompt_for flashcards Advanced "Cells divide."
     <> prompt_for flashcards Advanced "Genes mutate.".
Proof.
  assert (H : "Cells divide." <> "Genes mutate.") by discriminate.
  split; [exact H|].
  exact (prompts_tell_chunks_apart flashcards Advanced _ _ H).
Defined.

(** ** The whole run, and runs over concatenated chunk lists *)

Section Runs.

Variable ServiceState : Type.
Variable generate_content : ServiceState -> string -> outcome * ServiceState.

(** The result of the function, in closed form. *)
Lemma generate_result (text_chunks : list string)
    (g : generation_type) (d : difficulty) (s0 : ServiceState) :
  generate_content_with_gemini generate_content text_chunks g d s0
  = Some (mkRun
            (join_all (map contribution
                         (outcomes generate_content
                                   (map (prompt_for g d) text_chunks) s0)))
            (final_state generate_content (map (prompt_for g d) text_chunks) s0)
            (expected_trace (Pos.of_nat (List.length text_chunks)) 0
                            (map (prompt_for g d) text_chunks))).
Proof.
  unfold generate_content_with_gemini.
  destruct text_chunks as [|c cs] eqn:Hc; [reflexivity|].
  rewrite <- Hc. rewrite loop_runs by (subst; discriminate). reflexivity.
Qed.

Lemma outcomes_app (ps qs : list string) :
  forall s,
    outcomes generate_content (ps ++ qs) s
    = (outcomes generate_content ps s
       ++ outcomes generate_content qs (final_state generate_content ps s))%list.
Proof.
  induction ps as [|p ps IH]; intros s; [reflexivity|].
  cbn [app outcomes final_state].
  destruct (generate_content s p) as [o s']. cbn [snd app].
  now rewrite IH.
Qed.

Lemma final_state_app (ps qs : list string) :
  forall s,
    final_state generate_content (ps ++ qs) s
    = final_state generate_content qs (final_state generate_content ps s).
Proof.
  induction ps as [|p ps IH]; intros s; [reflexivity|].
  cbn [app final_state]. apply IH.
Qed.

End Runs.

Lemma calls_expected_trace (n : positive) (prompts : list string) :
  forall i, Handler.calls (expected_trace n i prompts) = prompts.
Proof.
  induction prompts as [|p ps IH]; intros i; [reflexivity|].
  simpl. now rewrite IH.
Qed.

(** X8: running the function on the chunks [a ++ b] gives the text of the
    run on [a] followed by the text of the run on [b] started in the state
    the service was left in; the service ends in the same state and has
    seen the same prompts in the same order. *)
Theorem generation_of_appended_chunks
    (ServiceState : Type)
    (generate_content : ServiceState -> string -> outcome * ServiceState)
    (a b : list string) (g : generation_type) (d : difficulty)
    (s0 : ServiceState) :
  exists ra rb rab,
    generate_content_with_gemini generate_content a g d s0 = Some ra
    /\ generate_content_with_gemini generate_content b g d (service ra) = Some rb
    /\ generate_content_with_gemini generate_content (a ++ b) g d s0 = Some rab
    /\ full_response rab = full_response ra ++ full_response rb
    /\ service rab = service rb
    /\ Handler.calls (trace rab)
       = (Handler.calls (trace ra) ++ Handler.calls (trace rb))%list.
Proof.
  do 3 eexists.
  split; [apply generate_result|]. split; [apply generate_result|].
  split; [apply generate_result|].
  cbn [full_response service trace].
  rewrite !calls_expected_trace, map_app, outcomes_app, final_state_app.
  rewrite map_app, join_all_app. auto.
Qed.

(** ** Progress values *)

Lemma pos_of_nat_Z (n : nat) : n <> 0%nat -> Z.pos (Pos.of_nat n) = Z.of_nat n.
Proof.
  intros H. rewrite <- (positive_nat_Z (Pos.of_nat n)).
  now rewrite Nat2Pos.id.
Qed.

Lemma expected_trace_in_range (n : nat) (prompts : list string) :
  forall i,
    (i + List.length prompts <= n)%nat ->
    Forall progress_in_range (expected_trace (Pos.of_nat n) i prompts).
Proof.
  induction prompts as [|p ps IH]; intros i Hle; [constructor|].
  simpl in Hle. simpl expected_trace.
  constructor; [exact I|]. constructor; [|apply IH; lia].
  assert (Hn : Z.pos (Pos.of_nat n) = Z.of_nat n) by (apply pos_of_nat_Z; lia).
  split.
  - unfold Qlt. simpl. lia.
  - unfold Qle. simpl. rewrite Hn. lia.
Qed.

Lemma expected_trace_snoc (n : positive) (prompts : list string) (p : string) :
  forall i,
    expected_trace n i (prompts ++ [p])
    = (expected_trace n i prompts
       ++ [Generate p;
           Progress ((Z.of_nat (i + List.length prompts) + 1) # n)])%list.
Proof.
  induction prompts as [|q qs IH]; intros i.
  - simpl. now rewrite Nat.add_0_r.
  - cbn [app expected_trace List.length]. rewrite IH.
    replace (S i + List.length qs)%nat with (i + S (List.length qs))%nat by lia.
    reflexivity.
Qed.

(** X7: every progress value reported during a run lies in the range the
    progress bar accepts, above 0 and at most 1; unless there is no chunk
    (and then no report at all), the last event of the run is a progress
    report of value 1. *)
Theorem progress_stays_in_range
    (ServiceState : Type)
    (generate_content : ServiceState -> string -> outcome * ServiceState)
    (text_chunks : list string) (g : generation_type) (d : difficulty)
    (s0 : ServiceState) :
  exists r,
    generate_content_with_gemini generate_content text_chunks g d s0 = Some r
    /\ Forall progress_in_range (trace r)
    /\ ((text_chunks = [] /\ trace r = [])
        \/ exists init value,
             trace r = (init ++ [Progress value])%list /\ (value == 1)%Q).
Proof.
  rewrite generate_result. eexists. split; [reflexivity|].
  cbn [trace]. split.
  - apply expected_trace_in_range. rewrite length_map. lia.
  - destruct text_chunks as [|c cs] eqn:Hc; [now left|]. right.
    rewrite <- Hc.
    assert (Hne : map (prompt_for g d) text_chunks <> []) by (subst; discriminate).
    destruct (exists_last Hne) as (ps & p & Hps).
    assert (Hlen : List.length text_chunks = S (List.length ps)).
    { rewrite <- (length_map (prompt_for g d)), Hps, length_app. simpl. lia. }
    rewrite Hps, expected_trace_snoc.
    eexists (_ ++ [Generate p])%list, _. split.
    + rewrite <- app_assoc. reflexivity.
    + unfold Qeq. simpl Qnum. simpl Qden.
      rewrite pos_of_nat_Z by lia. lia.
Qed.

End PipelineMore.

(* ================================================================== *)
(** * Further facts about the flashcard parser *)
(* ================================================================== *)

Module ParserMore.
Import PyStr PyStrFacts Parser ParserFacts Notions.

(** ** Stripping twice, and staying on one line *)

Lemma contains_lstrip (c : ascii) (s : string) :
  contains c s = false -> contains c (lstrip s) = false.
Proof.
  induction s as [|d s IH]; simpl; [auto|].
  intros H. apply orb_false_iff in H as [Hd Hs].
  destruct (isspace d); [auto|]. simpl. now rewrite Hd, Hs.
Qed.

Lemma contains_rstrip (c : ascii) (s : string) :
  contains c s = false -> contains c (rstrip s) = false.
Proof.
  induction s as [|d s IH]; simpl; [auto|].
  intros H. apply orb_false_iff in H as [Hd Hs]. specialize (IH Hs).
  destruct (rstrip s) as [|e k].
  - destruct (isspace d); simpl; [reflexivity | now rewrite Hd].
  - simpl in IH |- *. now rewrite Hd, IH.
Qed.

Lemma contains_slice_from (c : ascii) (n : nat) :
  forall s, contains c s = false -> contains c (slice_from n s) = false.
Proof.
  induction n as [|n IH]; intros s H; [exact H|].
  destruct s as [|d s]; [reflexivity|].
  simpl in H |- *. apply orb_false_iff in H as [_ Hs]. auto.
Qed.

Lemma split_fields_one_line (sep : ascii) (s : string) :
  Forall (fun f => contains sep f = false) (split sep s).
Proof.
  induction s as [|c s IH]; simpl; [repeat constructor|].
  destruct (Ascii.eqb c sep) eqn:Hc.
  - constructor; [reflexivity | exact IH].
  - destruct (split sep s) as [|f fs]; [repeat constructor; simpl; now rewrite Hc|].
    inversion IH as [|? ? Hf Hfs]; subst.
    constructor; [simpl; now rewrite Hc, Hf | exact Hfs].
Qed.

Lemma rstrip_idempotent (s : string) : rstrip (rstrip s) = rstrip s.
Proof.
  induction s as [|c s IH]; [reflexivity|].
  simpl. destruct (rstrip s) as [|d k] eqn:Hr.
  - destruct (isspace c) eqn:Hc; [reflexivity|]. simpl. now rewrite Hc.
  - change (rstrip (String c (String d k))) with
      (match rstrip (String d k) with
       | "" => if isspace c then "" else String c ""
       | kept => String c kept
       end).
    now rewrite IH.
Qed.

Lemma lstrip_shape (s : string) :
  lstrip s = "" \/ exists c t, lstrip s = String c t /\ isspace c = false.
Proof.
  induction s as [|c s IH]; simpl; [now left|].
  destruct (isspace c) eqn:Hc; [exact IH|].
  right. now exists c, s.
Qed.

Lemma strip_idempotent (s : string) : strip (strip s) = strip s.
Proof.
  unfold strip.
  destruct (lstrip_shape s) as [->|(c & t & -> & Hc)]; [reflexivity|].
  assert (Hhead : exists k, rstrip (String c t) = String c k).
  { simpl. destruct (rstrip t); [rewrite Hc|]; eauto. }
  destruct Hhead as (k & Hk).
  rewrite Hk, (lstrip_head c k Hc), <- Hk.
  apply rstrip_idempotent.
Qed.

(** The value the parser takes from a line that holds no line feed. *)
Lemma value_tidy (n : nat) (l : string) :
  contains nl l = false -> tidy (strip (slice_from n (strip l))).
Proof.
  intros H. split; [|apply strip_idempotent].
  unfold strip.
  apply contains_rstrip, contains_lstrip, contains_slice_from,
        contains_rstrip, contains_lstrip, H.
Qed.

(** ** X9: emitted fields are clean *)

Lemma save_card_clean (cards : list flashcard) (t d : option string) :
  Forall clean_card cards -> tidy_pending t -> tidy_pending d ->
  Forall clean_card (save_card cards t d).
Proof.
  intros Hc Ht Hd. unfold save_card.
  destruct t as [t|]; [|exact Hc]. destruct d as [d|]; [|exact Hc].
  destruct (truthy t) eqn:Htt; [|exact Hc].
  destruct (truthy d) eqn:Htd; [|exact Hc].
  simpl. apply Forall_app. split; [exact Hc|].
  destruct (Ht t eq_refl) as [Ht1 Ht2]. destruct (Hd d eq_refl) as [Hd1 Hd2].
  constructor; [|constructor].
  split; simpl; (split; [now apply truthy_true_iff | split; assumption]).
Qed.

Lemma parse_step_tidy (st : pstate) (l : string) :
  contains nl l = false -> tidy_state st -> tidy_state (parse_step st l).
Proof.
  intros Hl (Hc & Ht & Hd). unfold parse_step. cbv zeta.
  destruct (startswith (lower (strip l)) "term:").
  - split; [|split]; cbn [flashcards pending_term pending_definition].
    + now apply save_card_clean.
    + intros s [= <-]. exact (value_tidy 5 l Hl).
    + intros s [=].
  - destruct (startswith (lower (strip l)) "definition:"); [|now split].
    destruct (truthy_opt (pending_term st)); [|now split].
    split; [|split]; cbn [flashcards pending_term pending_definition]; auto.
    intros s [= <-]. exact (value_tidy 11 l Hl).
Qed.

Lemma fold_tidy (text_lines : list string) :
  Forall (fun l => contains nl l = false) text_lines ->
  forall st, tidy_state st -> tidy_state (fold_left parse_step text_lines st).
Proof.
  induction 1 as [|l ls Hl _ IH]; intros st Hst; [exact Hst|].
  simpl. now apply IH, parse_step_tidy.
Qed.

Lemma parse_lines_clean (text_lines : list string) :
  Forall (fun l => contains nl l = false) text_lines ->
  Forall clean_card (parse_lines text_lines).
Proof.
  intros H. unfold parse_lines. cbv zeta.
  destruct (fold_tidy text_lines H (mkP [] None None)) as (Hc & Ht & Hd).
  { split; [constructor|]. split; intros s [=]. }
  now apply save_card_clean.
Qed.

(** X9: whatever the raw text and the markup pass, each field of each
    record returned by [parse_flashcards] is not empty, holds no line
    feed and has no white space at either end. *)
Theorem flashcard_fields_are_clean
    (get_text : string -> string) (raw_text : string) :
  Forall (fun card => clean (term card) /\ clean (definition card))
         (parse_flashcards get_text raw_text).
Proof.
  unfold parse_flashcards, text_lines_of.
  apply parse_lines_clean, split_fields_one_line.
Qed.

(** ** X10: writing the records back and parsing again *)

Lemma parse_of_flashcard_text
    (get_text : string -> string) (pairs : list (string * string)) :
  Forall clean_pair pairs ->
  markup_free get_text (flashcard_text pairs) ->
  parse_flashcards get_text (flashcard_text pairs) = map card_of pairs.
Proof.
  intros Hall Hfree.
  unfold parse_flashcards, text_lines_of.
  rewrite Hfree, (strip_flashcard_text pairs Hall).
  destruct pairs as [|xy rest] eqn:Hp; [reflexivity|]. rewrite <- Hp in *.
  unfold flashcard_text.
  rewrite split_concat;
    [| subst; destruct xy; discriminate | now apply card_lines_one_line].
  now rewrite parse_lines_flush, (fold_card_lines pairs Hall).
Qed.

Lemma card_of_pair_of (cards : list flashcard) :
  map card_of (map pair_of cards) = cards.
Proof.
  induction cards as [|[t d] cs IH]; simpl; [reflexivity | now rewrite IH].
Qed.

(** X10: the records parsed from any raw text, written back as
    alternating Term and Definition lines, parse to the same records,
    provided the markup pass returns the written text unchanged. *)
Theorem parsed_cards_survive_rewriting
    (get_text : string -> string) (raw_text : string) :
  markup_free get_text
    (flashcard_text (map pair_of (parse_flashcards get_text raw_text))) ->
  parse_flashcards get_text
    (flashcard_text (map pair_of (parse_flashcards get_text raw_text)))
  = parse_flashcards get_text raw_text.
Proof.
  intros Hfree.
  rewrite parse_of_flashcard_text; [apply card_of_pair_of | | exact Hfree].
  apply Forall_map.
  pose proof (parse_lines_clean (text_lines_of get_text raw_text)
                (split_fields_one_line nl _)) as H.
  exact H.
Qed.

Lemma parsed_cards_survive_rewriting_witness :
  markup_free unwrap_div
    (flashcard_text (map pair_of (parse_flashcards unwrap_div sample_raw)))
  /\ parse_flashcards unwrap_div
       (flashcard_text (map pair_of (parse_flashcards unwrap_div sample_raw)))
     = [mkCard "Cell" "The unit of life"].
Proof.
  assert (H : markup_free unwrap_div
                (flashcard_text
                   (map pair_of (parse_flashcards unwrap_div sample_raw))))
    by reflexivity.
  split; [exact H|].
  exact (parsed_cards_survive_rewriting unwrap_div sample_raw H).
Defined.

(** ** X11, X12: lines that do not count *)

(** X11: a line that is neither a term line nor a definition line (a
    blank line, an error marker, any commentary of the model) can be
    removed from the input without changing the records. *)
Theorem other_lines_are_ignored (before after : list string) (other : string) :
  is_term_line other = false ->
  is_definition_line other = false ->
  parse_lines (before ++ other :: after) = parse_lines (before ++ after).
Proof.
  intros Ht Hd. rewrite !parse_lines_flush, !fold_left_app.
  cbn [fold_left]. now rewrite (step_other_line _ other Ht Hd).
Qed.

Lemma other_lines_are_ignored_witness :
  is_term_line "Error processing a chunk: quota exceeded" = false
  /\ is_definition_line "Error processing a chunk: quota exceeded" = false
  /\ parse_lines ["Term: Cell"; "Error processing a chunk: quota exceeded";
                  "Definition: The unit of life"]
     = parse_lines ["Term: Cell"; "Definition: The unit of life"].
Proof.
  split; [reflexivity|]. split; [reflexivity|].
  exact (other_lines_are_ignored ["Term: Cell"] ["Definition: The unit of life"]
           "Error processing a chunk: quota exceeded" eq_refl eq_refl).
Defined.

Lemma step_non_term_keeps (st : pstate) (l : string) :
  is_term_line l = false ->
  flashcards (parse_step st l) = flashcards st
  /\ pending_term (parse_step st l) = pending_term st.
Proof.
  intros Ht. destruct (is_definition_line l) eqn:Hd.
  - rewrite (step_definition_line st l Hd).
    destruct (truthy_opt (pending_term st)); split; reflexivity.
  - rewrite (step_other_line st l Ht Hd). split; reflexivity.
Qed.

Lemma fold_non_term_keeps (ls : list string) :
  Forall (fun l => is_term_line l = false) ls ->
  forall st,
    flashcards (fold_left parse_step ls st) = flashcards st
    /\ pending_term (fold_left parse_step ls st) = pending_term st.
Proof.
  induction 1 as [|l ls Hl _ IH]; intros st; [split; reflexivity|].
  cbn [fold_left]. destruct (IH (parse_step st l)) as [-> ->].
  now apply step_non_term_keeps.
Qed.

Lemma fold_non_term_without_term (ls : list string) :
  Forall (fun l => is_term_line l = false) ls ->
  forall st,
    truthy_opt (pending_term st) = false ->
    fold_left parse_step ls st = st.
Proof.
  induction 1 as [|l ls Hl _ IH]; intros st Hst; [reflexivity|].
  cbn [fold_left]. rewrite (step_without_term st l Hl Hst). now apply IH.
Qed.

(** X12: of the definition lines that follow a term line, the last one
    wins: a definition line followed, with no term line in between, by
    another definition line can be removed without changing the
    records. *)
Theorem last_definition_wins
    (before between after : list string) (first_def last_def : string) :
  is_definition_line first_def = true ->
  Forall (fun l => is_term_line l = false) between ->
  is_definition_line last_def = true ->
  parse_lines (before ++ first_def :: between ++ last_def :: after)
  = parse_lines (before ++ between ++ last_def :: after).
Proof.
  intros H1 Hb H2.
  rewrite !parse_lines_flush, !fold_left_app. cbn [fold_left].
  rewrite !fold_left_app. cbn [fold_left].
  set (st := fold_left parse_step before (mkP [] None None)).
  assert (Hnt : is_term_line first_def = false).
  { unfold is_definition_line in H1. apply andb_true_iff in H1 as [H1 _].
    now apply negb_true_iff. }
  destruct (truthy_opt (pending_term st)) eqn:Hterm.
  - destruct (fold_non_term_keeps (first_def :: between)
                ltac:(now constructor) st) as [Hc1 Ht1].
    destruct (fold_non_term_keeps between Hb st) as [Hc2 Ht2].
    cbn [fold_left] in Hc1, Ht1.
    rewrite !(step_definition_line _ last_def H2).
    now rewrite Hc1, Ht1, Hc2, Ht2, Hterm.
  - rewrite (step_without_term st first_def Hnt Hterm). reflexivity.
Qed.

Lemma last_definition_wins_witness :
  is_definition_line "Definition: a first try" = true
  /\ Forall (fun l => is_term_line l = false) ["(revised)"]
  /\ is_definition_line "definition: The unit of life" = true
  /\ parse_lines (["Term: Cell"]
                  ++ "Definition: a first try"
                     :: ["(revised)"] ++ "definition: The unit of life" :: [])
     = parse_lines (["Term: Cell"]
                    ++ ["(revised)"] ++ "definition: The unit of life" :: []).
Proof.
  assert (Hb : Forall (fun l => is_term_line l = false) ["(revised)"])
    by (repeat constructor).
  split; [reflexivity|]. split; [exact Hb|]. split; [reflexivity|].
  exact (last_definition_wins ["Term: Cell"] ["(revised)"] []
           "Definition: a first try" "definition: The unit of life"
           eq_refl Hb eq_refl).
Defined.

(** ** X13: no more records than term lines, or definition lines *)

Lemma flush_term_weight (st : pstate) :
  (List.length (flush st) <= term_weight st)%nat.
Proof.
  unfold flush, term_weight, save_card.
  destruct (pending_term st) as [t|]; [|lia].
  destruct (pending_definition st) as [d|]; [|lia].
  destruct (truthy t && truthy d); [rewrite length_app; simpl|]; lia.
Qed.

Lemma flush_definition_weight (st : pstate) :
  (List.length (flush st) <= definition_weight st)%nat.
Proof.
  unfold flush, definition_weight, save_card.
  destruct (pending_term st) as [t|]; [|lia].
  destruct (pending_definition st) as [d|]; [|lia].
  destruct (truthy t && truthy d); [rewrite length_app; simpl|]; lia.
Qed.

Lemma step_term_weight (st : pstate) (l : string) :
  (term_weight (parse_step st l)
   <= term_weight st + if is_term_line l then 1 else 0)%nat.
Proof.
  destruct (is_term_line l) eqn:Ht.
  - rewrite (step_term_line st l Ht). unfold term_weight at 1.
    cbn [flashcards pending_term]. pose proof (flush_term_weight st). lia.
  - destruct (step_non_term_keeps st l Ht) as [Hc Hp].
    unfold term_weight. rewrite Hc, Hp. lia.
Qed.

Lemma step_definition_weight (st : pstate) (l : string) :
  (definition_weight (parse_step st l)
   <= definition_weight st + if is_definition_line l then 1 else 0)%nat.
Proof.
  destruct (is_term_line l) eqn:Ht.
  - rewrite (step_term_line st l Ht). unfold definition_weight at 1.
    cbn [flashcards pending_definition].
    pose proof (flush_definition_weight st). lia.
  - destruct (is_definition_line l) eqn:Hd.
    + rewrite (step_definition_line st l Hd).
      destruct (truthy_opt (pending_term st)); [|lia].
      unfold definition_weight. cbn [flashcards pending_definition]. lia.
    + rewrite (step_other_line st l Ht Hd). lia.
Qed.

Lemma fold_weights (ls : list string) :
  forall st,
    (term_weight (fold_left parse_step ls st)
     <= term_weight st + count_term_lines ls)%nat
    /\ (definition_weight (fold_left parse_step ls st)
        <= definition_weight st + count_definition_lines ls)%nat.
Proof.
  unfold count_term_lines, count_definition_lines.
  induction ls as [|l ls IH]; intros st; [simpl; lia|].
  cbn [fold_left filter]. destruct (IH (parse_step st l)) as [IHt IHd].
  pose proof (step_term_weight st l). pose proof (step_definition_weight st l).
  destruct (is_term_line l), (is_definition_line l); simpl; lia.
Qed.

(** X13: [parse_flashcards] returns at most as many records as the text
    has term lines, and at most as many as it has definition lines. *)
Theorem at_most_one_card_per_keyword_line
    (get_text : string -> string) (raw_text : string) :
  (List.length (parse_flashcards get_text raw_text)
   <= count_term_lines (text_lines_of get_text raw_text))%nat
  /\ (List.length (parse_flashcards get_text raw_text)
      <= count_definition_lines (text_lines_of get_text raw_text))%nat.
Proof.
  unfold parse_flashcards. rewrite parse_lines_flush.
  destruct (fold_weights (text_lines_of get_text raw_text) (mkP [] None None))
    as [Ht Hd].
  pose proof (flush_term_weight
                (fold_left parse_step (text_lines_of get_text raw_text)
                           (mkP [] None None))).
  pose proof (flush_definition_weight
                (fold_left parse_step (text_lines_of get_text raw_text)
                           (mkP [] None None))).
  unfold term_weight at 2 in Ht. unfold definition_weight at 2 in Hd.
  simpl in Ht, Hd. lia.
Qed.

(** ** X14: every record was read from the text *)

Lemma read_from_more (seen seen' : list string) (c : flashcard) :
  incl seen seen' -> read_from seen c -> read_from seen' c.
Proof.
  intros Hi (lt & ld & H1 & H2 & H). exists lt, ld. split; [|split]; auto.
Qed.

Lemma read_state_more (seen seen' : list string) (st : pstate) :
  incl seen seen' -> read_state seen st -> read_state seen' st.
Proof.
  intros Hi (Hc & Ht & Hd). split; [|split].
  - eapply Forall_impl; [|exact Hc]. intros c. now apply read_from_more.
  - intros t Hsome. destruct (Ht t Hsome) as (l & Hl & H). exists l. auto.
  - intros d Hsome. destruct (Hd d Hsome) as (l & Hl & H). exists l. auto.
Qed.

Lemma flush_read (seen : list string) (st : pstate) :
  read_state seen st -> Forall (read_from seen) (flush st).
Proof.
  intros (Hc & Ht & Hd). unfold flush, save_card.
  destruct (pending_term st) as [t|]; [|exact Hc].
  destruct (pending_definition st) as [d|]; [|exact Hc].
  destruct (truthy t && truthy d); [|exact Hc].
  apply Forall_app. split; [exact Hc|]. constructor; [|constructor].
  destruct (Ht t eq_refl) as (lt & Hlt & Htl & ->).
  destruct (Hd d eq_refl) as (ld & Hld & Hdl & ->).
  exists lt, ld. repeat split; auto.
Qed.

Lemma step_read (seen : list string) (st : pstate) (l : string) :
  read_state seen st -> read_state (seen ++ [l]) (parse_step st l).
Proof.
  intros Hst.
  assert (Hin : In l (seen ++ [l])) by (apply in_or_app; right; now left).
  assert (Hmore : read_state (seen ++ [l]) st).
  { eapply read_state_more; [|exact Hst]. now apply incl_appl. }
  destruct (is_term_line l) eqn:Ht.
  - rewrite (step_term_line st l Ht). split; [|split].
    + now apply flush_read.
    + intros t [= <-]. exists l. auto.
    + intros d [=].
  - destruct (is_definition_line l) eqn:Hd.
    + rewrite (step_definition_line st l Hd).
      destruct (truthy_opt (pending_term st)); [|exact Hmore].
      destruct Hmore as (Hc & Hpt & _). split; [|split]; auto.
      intros d [= <-]. exists l. auto.
    + now rewrite (step_other_line st l Ht Hd).
Qed.

Lemma fold_read (ls : list string) :
  forall seen st,
    read_state seen st ->
    read_state (seen ++ ls) (fold_left parse_step ls st).
Proof.
  induction ls as [|l ls IH]; intros seen st Hst.
  - now rewrite app_nil_r.
  - cbn [fold_left].
    replace (seen ++ l :: ls)%list with ((seen ++ [l]) ++ ls)%list
      by now rewrite <- app_assoc.
    now apply IH, step_read.
Qed.

(** X14: the parser invents nothing: in every record returned by
    [parse_flashcards] the term is what follows the keyword on some term
    line of the text, stripped, and the definition is what follows the
    keyword on some definition line of the text, stripped. *)
Theorem every_card_is_read_from_the_text
    (get_text : string -> string) (raw_text : string) :
  Forall (fun card =>
            exists term_line definition_line,
              In term_line (text_lines_of get_text raw_text)
              /\ In definition_line (text_lines_of get_text raw_text)
              /\ is_term_line term_line = true
              /\ is_definition_line definition_line = true
              /\ term card = strip (slice_from 5 (strip term_line))
              /\ definition card
                 = strip (slice_from 11 (strip definition_line)))
         (parse_flashcards get_text raw_text).
Proof.
  unfold parse_flashcards. rewrite parse_lines_flush.
  apply (flush_read (text_lines_of get_text raw_text)).
  apply (fold_read (text_lines_of get_text raw_text) [] (mkP [] None None)).
  split; [constructor|]. split; intros x [=].
Qed.

(** ** X15: indentation does not matter *)

Lemma parse_step_strip (st : pstate) (l : string) :
  parse_step st (strip l) = parse_step st l.
Proof. unfold parse_step. cbv zeta. now rewrite strip_idempotent. Qed.

Lemma fold_strip (ls : list string) :
  forall st,
    fold_left parse_step (map strip ls) st = fold_left parse_step ls st.
Proof.
  induction ls as [|l ls IH]; intros st; [reflexivity|].
  cbn [map fold_left]. now rewrite parse_step_strip, IH.
Qed.

(** X15: white space at the ends of the lines does not matter: the loop
    gives the same records on the lines as on the stripped lines. *)
Theorem indentation_is_ignored (text_lines : list string) :
  parse_lines (map strip text_lines) = parse_lines text_lines.
Proof.
  rewrite !parse_lines_flush.
  f_equal. apply fold_strip.
Qed.

End ParserMore.

(* ================================================================== *)
(** * Further facts about the flashcard viewer *)
(* ================================================================== *)

Module ViewerMore.
Import Parser Viewer ViewerFacts ViewerNotions.

Local Open Scope Z_scope.

(** [showCard] inside the deck writes the whole page from the card. *)
Lemma showCard_in_range (deck : list flashcard) (i : Z) (v : view) :
  0 <= i < deck_length deck ->
  exists card,
    nth_error deck (Z.to_nat i) = Some card
    /\ showCard deck i v
       = mkView (currentIndex v) false (Some (term card)) (Some (definition card))
                (Some (i + 1, deck_length deck))
                (i =? 0) (i =? deck_length deck - 1).
Proof.
  intros Hi. destruct (card_at_in_range deck i Hi) as (card & Hcard).
  exists card. split.
  - unfold card_at in Hcard. destruct (Z.ltb_spec i 0); [lia | exact Hcard].
  - unfold showCard. destruct (Z.eqb_spec (deck_length deck) 0); [lia|].
    now rewrite Hcard.
Qed.

Lemma showCard_shows (deck : list flashcard) (v : view) :
  0 <= currentIndex v < deck_length deck ->
  shows_current_card deck (showCard deck (currentIndex v) v).
Proof.
  intros Hi. destruct (showCard_in_range deck _ v Hi) as (card & Hnth & ->).
  exists card. simpl. auto 10.
Qed.

Lemma handle_shows (deck : list flashcard) (v : view) (e : user_event) :
  0 <= currentIndex v < deck_length deck ->
  shows_current_card deck v ->
  shows_current_card deck (listener deck v e).
Proof.
  intros Hi Hv. destruct e; simpl.
  - exact Hv.
  - unfold on_prev. destruct (Z.ltb_spec 0 (currentIndex v)); [|exact Hv].
    cbv zeta. apply showCard_shows. simpl. lia.
  - unfold on_next.
    destruct (Z.ltb_spec (currentIndex v) (deck_length deck - 1)); [|exact Hv].
    cbv zeta. apply showCard_shows. simpl. lia.
Qed.

Lemma fold_shows (deck : list flashcard) (events : list user_event) :
  forall v,
    0 <= currentIndex v < deck_length deck ->
    shows_current_card deck v ->
    shows_current_card deck (fold_left (listener deck) events v).
Proof.
  induction events as [|e es IH]; intros v Hi Hv; [exact Hv|].
  simpl. apply IH; [now apply handle_in_range | now apply handle_shows].
Qed.

Lemma script_shows_current_card
    (deck : list flashcard) (events : list user_event) :
  deck <> [] -> shows_current_card deck (script_run deck events).
Proof.
  intros Hne. pose proof (deck_length_pos deck Hne) as Hpos.
  apply (fold_shows deck events (script_start deck)).
  - rewrite script_start_index. lia.
  - unfold script_start.
    apply (showCard_shows deck (mkView 0 false None None None false false)).
    simpl. lia.
Qed.



Lemma handle_empty_deck (v : view) (e : user_event) :
  currentIndex v = 0 ->
  currentIndex (listener [] v e) = 0
  /\ front (listener [] v e) = front v
  /\ back (listener [] v e) = back v
  /\ counter (listener [] v e) = counter v.
Proof.
  intros H0. destruct e; simpl.
  - auto.
  - unfold on_prev. rewrite H0. simpl. auto.
  - unfold on_next. rewrite H0. simpl. auto.
Qed.

(** X17: with an empty deck the script runs and shows no card, whatever
    is clicked: front, back and counter are never written and the index
    stays at 0. *)
Theorem empty_deck_shows_nothing (events : list user_event) :
  exists v,
    run [] events = Live v
    /\ currentIndex v = 0
    /\ front v = None
    /\ back v = None
    /\ counter v = None.
Proof.
  assert (Hruns : script_runs [] = true) by (vm_compute; reflexivity).
  exists (script_run [] events). split; [now apply run_live|].
  unfold script_run.
  assert (H : forall v,
             currentIndex v = 0 ->
             currentIndex (fold_left (listener []) events v) = 0
             /\ front (fold_left (listener []) events v) = front v
             /\ back (fold_left (listener []) events v) = back v
             /\ counter (fold_left (listener []) events v) = counter v).
  { induction events as [|e es IH]; intros v Hv; [auto|].
    simpl. destruct (handle_empty_deck v e Hv) as (H0 & Hf & Hb & Hc).
    destruct (IH _ H0) as (-> & -> & -> & ->). auto. }
  exact (H (script_start []) eq_refl).
Qed.

Lemma listeners_undo_each_other (deck : list flashcard) (v : view) :
  0 <= currentIndex v < deck_length deck ->
  shows_current_card deck v ->
  (currentIndex v < deck_length deck - 1 ->
     listener deck (listener deck v Next) Previous = front_facing v)
  /\ (0 < currentIndex v ->
        listener deck (listener deck v Previous) Next = front_facing v).
Proof.
  intros Hi (card & Hnth & Hf & Hb & Hc & Hp & Hn).
  assert (Hback : forall w,
             currentIndex w = currentIndex v ->
             showCard deck (currentIndex w) w = front_facing v).
  { intros w Hw.
    destruct (showCard_in_range deck (currentIndex w) w) as (c & Hc' & ->);
      [lia|].
    rewrite Hw in Hc' |- *. rewrite Hnth in Hc'. injection Hc' as <-.
    unfold front_facing. now rewrite Hf, Hb, Hc, Hp, Hn. }
  split; intros Hmove; simpl.
  - unfold on_next.
    destruct (Z.ltb_spec (currentIndex v) (deck_length deck - 1)); [|lia].
    cbv zeta.
    destruct (showCard_in_range deck (currentIndex (set_index (currentIndex v + 1) v))
                (set_index (currentIndex v + 1) v)) as (c & _ & ->);
      [simpl; lia|].
    unfold on_prev. cbn [currentIndex set_index].
    destruct (Z.ltb_spec 0 (currentIndex v + 1)); [|lia].
    cbv zeta. apply Hback. simpl. lia.
  - unfold on_prev.
    destruct (Z.ltb_spec 0 (currentIndex v)); [|lia].
    cbv zeta.
    destruct (showCard_in_range deck (currentIndex (set_index (currentIndex v - 1) v))
                (set_index (currentIndex v - 1) v)) as (c & _ & ->);
      [simpl; lia|].
    unfold on_next. cbn [currentIndex set_index].
    destruct (Z.ltb_spec (currentIndex v - 1) (deck_length deck - 1)); [|lia].
    cbv zeta. apply Hback. simpl. lia.
Qed.



(** ** Decks that cannot end the script *)

Lemma tokenize_app (a b : string) :
  forall q, tokenize (a ++ b) q = tokenize b (tokenize a q).
Proof. induction a as [|c a IH]; intros q; [reflexivity | apply IH]. Qed.

Lemma is_less_than (c : ascii) : is_char c 60 = Ascii.eqb c "<".
Proof. destruct c as [[] [] [] [] [] [] [] []]; reflexivity. Qed.

Lemma tokenize_quiet (s : string) :
  PyStr.contains "<" s = false -> tokenize s Data = Data.
Proof.
  induction s as [|c s IH]; [reflexivity|].
  simpl PyStr.contains. intros H. apply orb_false_iff in H as [Hc Hs].
  cbn [tokenize tok_step]. unfold in_data. rewrite is_less_than, Hc. auto.
Qed.

Lemma json_char_quiet (c : ascii) :
  PyStr.contains "<" (json_char c) = Ascii.eqb c "<".
Proof. destruct c as [[] [] [] [] [] [] [] []]; vm_compute; reflexivity. Qed.

Lemma json_chars_quiet (s : string) :
  PyStr.contains "<" (json_chars s) = PyStr.contains "<" s.
Proof.
  induction s as [|c s IH]; [reflexivity|].
  cbn [json_chars]. rewrite PyStrFacts.contains_append, json_char_quiet, IH.
  reflexivity.
Qed.

Lemma quoted_quiet (s : string) :
  PyStr.contains "<" (quoted s) = PyStr.contains "<" s.
Proof.
  unfold quoted. cbn [PyStr.contains].
  rewrite PyStrFacts.contains_append. cbn. now rewrite orb_false_r.
Qed.

Lemma json_card_quiet (c : flashcard) :
  PyStr.contains "<" (term c) = false ->
  PyStr.contains "<" (definition c) = false ->
  PyStr.contains "<" (json_card c) = false.
Proof.
  intros Ht Hd. unfold json_card, json_string.
  rewrite !PyStrFacts.contains_append, !quoted_quiet, !json_chars_quiet, Ht, Hd.
  reflexivity.
Qed.

Lemma json_cards_quiet (deck : list flashcard) :
  no_less_than deck ->
  PyStr.contains "<" (String.concat ", " (map json_card deck)) = false.
Proof.
  induction 1 as [|c cs [Ht Hd] _ IH]; [reflexivity|].
  destruct cs as [|c' cs].
  - simpl. now apply json_card_quiet.
  - change (String.concat ", " (map json_card (c :: c' :: cs)))
      with (json_card c ++ ", " ++ String.concat ", " (map json_card (c' :: cs))).
    rewrite !PyStrFacts.contains_append, IH, (json_card_quiet c Ht Hd).
    reflexivity.
Qed.

(** X21: a deck none of whose fields holds a less-than sign always
    leaves the script as written: the script runs. *)
Theorem decks_without_less_than_run (deck : list flashcard) :
  no_less_than deck -> script_runs deck = true.
Proof.
  intros Hdeck.
  assert (Hjson : PyStr.contains "<" (json_dumps deck) = false).
  { unfold json_dumps.
    rewrite !PyStrFacts.contains_append, (json_cards_quiet deck Hdeck).
    reflexivity. }
  assert (Hhead : tokenize script_head Data = Data) by (vm_compute; reflexivity).
  assert (Htail : tokenize script_tail Data = Data) by (vm_compute; reflexivity).
  unfold script_runs, script_text.
  rewrite !tokenize_app, Hhead, (tokenize_quiet _ Hjson), Htail.
  reflexivity.
Qed.

Lemma decks_without_less_than_run_witness :
  no_less_than three_cards /\ script_runs three_cards = true.
Proof.
  assert (H : no_less_than three_cards) by (repeat constructor).
  split; [exact H|].
  exact (decks_without_less_than_run three_cards H).
Defined.

End ViewerMore.

(* ================================================================== *)
(** * Facts about the button handler *)
(* ================================================================== *)

Module HandlerFacts.
Import PyStr PyStrFacts Chunker Parser Pipeline PipelineFacts PipelineMore Handler.

Lemma calls_app (tr1 tr2 : list event) :
  calls (tr1 ++ tr2) = (calls tr1 ++ calls tr2)%list.
Proof. unfold calls. apply flat_map_app. Qed.


End HandlerFacts.
